(** * Password strength evaluation engine: a verification development

    The Python module [password_checker.py] is embedded function by function.
    Python text ([str]) is a list of Unicode code points, the digest and the
    UTF-8 encoding work on lists of bytes, machine words of SHA-1 are natural
    numbers reduced modulo [2^32], Python exceptions are an explicit result
    type, and Python floats are idealised by the real numbers they
    approximate (the one place where the finite range of a binary64 changes
    the control flow, the [OverflowError] of [**], is written out). *)

From Stdlib Require Import NArith ZArith List Bool Ascii String Lia.
From Stdlib Require Import Reals Lra DecimalString.
Import ListNotations.

(** ** Python text *)

Module PyStr.

(** A character is its code point; lone surrogates, which [str.encode]
    rejects, are outside the model: web forms and terminals deliver decoded
    text. *)
Definition char := N.
Definition str := list char.

(** An ASCII literal of the source as a [str]. *)
Definition lit (s : string) : str :=
  List.map N_of_ascii (list_ascii_of_string s).

Definition str_eqb (a b : str) : bool :=
  if list_eq_dec N.eq_dec a b then true else false.

(** [a.startswith(b)] read off the lists. *)
Fixpoint starts_with (needle hay : str) : bool :=
  match needle, hay with
  | [], _ => true
  | _ :: _, [] => false
  | x :: needle', y :: hay' => N.eqb x y && starts_with needle' hay'
  end.

(** [needle in hay]: substring containment. *)
Fixpoint contains (needle hay : str) : bool :=
  starts_with needle hay ||
  match hay with
  | [] => false
  | _ :: hay' => contains needle hay'
  end.

(** [s.split(sep)] for a one-character separator: every occurrence cuts,
    so the result has one part more than there are separators. *)
Fixpoint split_on (sep : char) (s : str) : list str :=
  match s with
  | [] => [[]]
  | c :: s' =>
      if N.eqb c sep then [] :: split_on sep s'
      else match split_on sep s' with
           | [] => [[c]]
           | part :: parts => (c :: part) :: parts
           end
  end.

(** Line boundaries of [str.splitlines]: LF, VT, FF, CR, FS, GS, RS, NEL,
    LINE SEPARATOR and PARAGRAPH SEPARATOR; CR LF counts once. *)
Definition is_linebreak (c : char) : bool :=
  existsb (N.eqb c) [10; 11; 12; 13; 28; 29; 30; 133; 8232; 8233]%N.

Fixpoint splitlines_from (cur : str) (s : str) : list str :=
  match s with
  | [] => match cur with [] => [] | _ => [rev cur] end
  | c :: rest =>
      if N.eqb c 13 then
        match rest with
        | d :: rest' =>
            if N.eqb d 10 then rev cur :: splitlines_from [] rest'
            else rev cur :: splitlines_from [] rest
        | [] => rev cur :: splitlines_from [] rest
        end
      else if is_linebreak c then rev cur :: splitlines_from [] rest
      else splitlines_from (c :: cur) rest
  end.

Definition splitlines (s : str) : list str := splitlines_from [] s.

(** ASCII character classes, as [str] methods and [re] see them. *)
Definition in_range (lo hi c : N) : bool := N.leb lo c && N.leb c hi.
Definition ascii_lower_letter := in_range 97 122.
Definition ascii_upper_letter := in_range 65 90.
Definition ascii_digit := in_range 48 57.
Definition ascii_space (c : N) : bool :=
  in_range 9 13 c || in_range 28 32 c.
Definition is_ascii (c : N) : bool := N.ltb c 128.

End PyStr.
Import PyStr.

(** ** UTF-8 and SHA-1 ([hashlib.sha1(password.encode('utf-8'))]) *)

Module Sha1.
Local Open Scope N_scope.

Definition utf8_char (c : N) : list N :=
  if c <? 128 then [c]
  else if c <? 2048 then
    [N.lor 192 (N.shiftr c 6); N.lor 128 (N.land c 63)]
  else if c <? 65536 then
    [N.lor 224 (N.shiftr c 12); N.lor 128 (N.land (N.shiftr c 6) 63);
     N.lor 128 (N.land c 63)]
  else
    [N.lor 240 (N.shiftr c 18); N.lor 128 (N.land (N.shiftr c 12) 63);
     N.lor 128 (N.land (N.shiftr c 6) 63); N.lor 128 (N.land c 63)].

Definition encode_utf8 (s : str) : list N := flat_map utf8_char s.

Definition w32 (x : N) : N := x mod 4294967296.
Definition add32 (x y : N) : N := w32 (x + y).
Definition rotl (n x : N) : N :=
  w32 (N.lor (N.shiftl x n) (N.shiftr x (32 - n))).
Definition not32 (x : N) : N := N.lxor x 4294967295.

(** Big-endian bytes of a number, [n] of them. *)
Fixpoint be_bytes (n : nat) (x : N) : list N :=
  match n with
  | O => []
  | S n' => be_bytes n' (N.shiftr x 8) ++ [N.land x 255]
  end.

Definition pad (msg : list N) : list N :=
  let len := N.of_nat (List.length msg) in
  let zeros := N.to_nat ((119 - len mod 64) mod 64) in
  msg ++ [128] ++ repeat 0 zeros ++ be_bytes 8 (8 * len).

Fixpoint words_of (n : nat) (bytes : list N) : list N :=
  match n, bytes with
  | S n', a :: b :: c :: d :: rest =>
      N.lor (N.shiftl a 24) (N.lor (N.shiftl b 16) (N.lor (N.shiftl c 8) d))
      :: words_of n' rest
  | _, _ => []
  end.

(** The message schedule: words 16..79 from the sixteen of the block. *)
Fixpoint schedule (n : nat) (w : list N) : list N :=
  match n with
  | O => w
  | S n' =>
      let t := List.length w in
      let at_ k := nth (t - k) w 0 in
      schedule n'
        (w ++ [rotl 1 (N.lxor (N.lxor (at_ 3%nat) (at_ 8%nat))
                              (N.lxor (at_ 14%nat) (at_ 16%nat)))])
  end.

Definition round_f (t : nat) (b c d : N) : N :=
  if Nat.ltb t 20 then N.lor (N.land b c) (N.land (not32 b) d)
  else if Nat.ltb t 40 then N.lxor (N.lxor b c) d
  else if Nat.ltb t 60 then
    N.lor (N.lor (N.land b c) (N.land b d)) (N.land c d)
  else N.lxor (N.lxor b c) d.

Definition round_k (t : nat) : N :=
  if Nat.ltb t 20 then 1518500249
  else if Nat.ltb t 40 then 1859775393
  else if Nat.ltb t 60 then 2400959708
  else 3395469782.

Definition state := (N * N * N * N * N)%type.

Fixpoint rounds (t : nat) (ws : list N) (s : state) : state :=
  match ws with
  | [] => s
  | wt :: ws' =>
      let '(a, b, c, d, e) := s in
      let tmp :=
        add32 (add32 (add32 (add32 (rotl 5 a) (round_f t b c d)) e)
                     (round_k t)) wt in
      rounds (S t) ws' (tmp, a, rotl 30 b, c, d)
  end.

Definition compress (h : state) (block : list N) : state :=
  let '(h0, h1, h2, h3, h4) := h in
  let '(a, b, c, d, e) := rounds 0 (schedule 64 (words_of 16 block)) h in
  (add32 h0 a, add32 h1 b, add32 h2 c, add32 h3 d, add32 h4 e).

Fixpoint blocks (n : nat) (bytes : list N) (h : state) : state :=
  match n with
  | O => h
  | S n' => blocks n' (skipn 64 bytes) (compress h (firstn 64 bytes))
  end.

Definition init : state :=
  (1732584193, 4023233417, 2562383102, 271733878, 3285377520).

Definition digest (msg : list N) : list N :=
  let p := pad msg in
  let '(h0, h1, h2, h3, h4) := blocks (List.length p / 64) p init in
  be_bytes 4 h0 ++ be_bytes 4 h1 ++ be_bytes 4 h2 ++ be_bytes 4 h3
  ++ be_bytes 4 h4.

(** [.hexdigest().upper()]: two upper-case hexadecimal digits per byte. *)
Definition hex_digit (x : N) : N := if x <? 10 then 48 + x else 55 + x.
Definition hex_upper (bytes : list N) : str :=
  flat_map (fun b => [hex_digit (N.shiftr b 4); hex_digit (N.land b 15)])
           bytes.

Definition sha1_hex_upper (s : str) : str :=
  hex_upper (digest (encode_utf8 s)).

End Sha1.

(** ** The runtime around the module *)

(** Python exceptions that can leave the module. *)
Inductive exn : Set :=
| RequestException   (* [requests.get] raised: no connection, timeout *)
| ValueError         (* unpacking a line that has not two fields *)
| OverflowError      (* a float result out of range *)
| ZeroDivisionError.

Inductive result (A : Type) : Type :=
| Ok (a : A)
| Raise (e : exn).
Arguments Ok {A} a.
Arguments Raise {A} e.

Definition bind {A B : Type} (m : result A) (k : A -> result B) : result B :=
  match m with
  | Ok a => k a
  | Raise e => Raise e
  end.

Notation "x <- m ;; k" := (bind m (fun x => k))
  (at level 61, m at next level, right associativity).

(** What [requests.get(url)] does: it raises, or it returns a response with
    a status code and a decoded body. *)
Inductive http_outcome : Type :=
| ConnectionFailed
| Response (status_code : Z) (text : str).

(** The Unicode character database behind [str.islower], [str.isupper],
    [str.isdigit], [str.isspace], [str.lower] and the [\d] of [re].  Below
    code point 128 their values are fixed in the definitions that follow;
    the tables are consulted for the other characters only.  [uni_lower]
    is the lower-case mapping of one character between the text before and
    after it (the mapping of a capital sigma depends on both). *)
Record unicode_tables : Type := {
  uni_islower : char -> bool;
  uni_isupper : char -> bool;
  uni_isdigit : char -> bool;
  uni_isdecimal : char -> bool;
  uni_isspace : char -> bool;
  uni_lower : str -> char -> str -> str
}.

(** Tables in which no character beyond ASCII has a class or a case. *)
Definition ascii_only : unicode_tables := {|
  uni_islower := fun _ => false;
  uni_isupper := fun _ => false;
  uni_isdigit := fun _ => false;
  uni_isdecimal := fun _ => false;
  uni_isspace := fun _ => false;
  uni_lower := fun _ c _ => [c]
|}.

(** A number as the module handles it: [calculate_entropy] returns the
    [int] 0 or a [float]. *)
Inductive pynum : Type :=
| PyInt (z : Z)
| PyFloat (r : R).

Definition num_val (x : pynum) : R :=
  match x with
  | PyInt z => IZR z
  | PyFloat r => r
  end.

Definition string_of_Z (z : Z) : string := NilZero.string_of_int (Z.to_int z).

Definition nl : string := String (ascii_of_nat 10) EmptyString.

(** [math.log2]. *)
Definition log2 (x : R) : R := ln x / ln 2.

(** [round(x)]: the nearest integer, a tie going to the even one. *)
Definition round_half_even (x : R) : Z :=
  let f := Zfloor x in
  let d := (x - IZR f)%R in
  if Rlt_dec d (1 / 2) then f
  else if Rlt_dec (1 / 2) d then (f + 1)%Z
  else if Z.even f then f else (f + 1)%Z.

(** [round(x, 2)]. *)
Definition round2 (x : R) : R := (IZR (round_half_even (x * 100)) / 100)%R.

(** [2 ** entropy] as far as the division that follows it: an exact power
    of an [int], the power function of the C library for a [float].  A
    binary64 stays below [2^1024]: from exponent 1024 on the float power
    overflows, and so does the conversion of the exact integer power in
    [guesses / guesses_per_second]; both raise [OverflowError]. *)
Definition pow2 (entropy : pynum) : result R :=
  if Rle_dec 1024 (num_val entropy) then Raise OverflowError
  else Ok (Rpower 2 (num_val entropy)).

Section Module_password_checker.

Variable U : unicode_tables.
(** The transport: what [requests.get] answers for a URL. *)
Variable get : str -> http_outcome.
(** [str()] of a float, as an f-string inserts it. *)
Variable float_repr : R -> string.

Definition islower (c : char) : bool :=
  if is_ascii c then ascii_lower_letter c else uni_islower U c.
Definition isupper (c : char) : bool :=
  if is_ascii c then ascii_upper_letter c else uni_isupper U c.
Definition isdigit (c : char) : bool :=
  if is_ascii c then ascii_digit c else uni_isdigit U c.
Definition isspace (c : char) : bool :=
  if is_ascii c then ascii_space c else uni_isspace U c.
(** What [\d] matches in a [str] pattern. *)
Definition re_digit (c : char) : bool :=
  if is_ascii c then ascii_digit c else uni_isdecimal U c.

Fixpoint lower_from (before s : str) : str :=
  match s with
  | [] => []
  | c :: rest =>
      (if is_ascii c then [if ascii_upper_letter c then (c + 32)%N else c]
       else uni_lower U before c rest)
      ++ lower_from (before ++ [c]) rest
  end.

(** [s.lower()]. *)
Definition lower (s : str) : str := lower_from [] s.

(** [s.split()]: the maximal runs of characters that are not whitespace. *)
Fixpoint split_from (cur s : str) : list str :=
  match s with
  | [] => match cur with [] => [] | _ => [rev cur] end
  | c :: rest =>
      if isspace c then
        match cur with
        | [] => split_from [] rest
        | _ => rev cur :: split_from [] rest
        end
      else split_from (c :: cur) rest
  end.

Definition split_whitespace (s : str) : list str := split_from [] s.

(** *** The blacklist *)

Definition HASHED_BLACKLIST : list str :=
  [ lit "5BAA61E4C9B93F3F0682250B6CF8331B7EE68FD8";
    lit "7C4A8D09CA3762AF61E59520943DC26494F8941B" ].

Definition is_in_hashed_blacklist (password : str) : bool :=
  let sha1 := Sha1.sha1_hex_upper password in
  existsb (str_eqb sha1) HASHED_BLACKLIST.

(** *** The breach check *)

(** The loop over the parsed lines: each is unpacked into exactly two
    fields, which raises [ValueError] on any other number of them. *)
Fixpoint scan_hashes (suffix : str) (hashes : list (list str)) : result bool :=
  match hashes with
  | [] => Ok false
  | [hash_suffix; _count] :: rest =>
      if str_eqb hash_suffix suffix then Ok true
      else scan_hashes suffix rest
  | _ :: _ => Raise ValueError
  end.

Definition range_url : str := lit "https://api.pwnedpasswords.com/range/".

Definition is_password_breached (password : str) : result bool :=
  let sha1_hash := Sha1.sha1_hex_upper password in
  let prefix := firstn 5 sha1_hash in
  let suffix := skipn 5 sha1_hash in
  let url := range_url ++ prefix in
  match get url with
  | ConnectionFailed => Raise RequestException
  | Response status_code text =>
      if negb (Z.eqb status_code 200) then Ok false
      else scan_hashes suffix (List.map (split_on 58%N) (splitlines text))
  end.

(** *** Entropy *)

(** The twenty symbols of the entropy estimate and of rule 5: thirteen up
    to the question mark, the quotation mark (code point 34, which the
    backslash of the source escapes), and six from the colon on. *)
Definition symbols : str := lit "!@#$%^&*(),.?" ++ [34%N] ++ lit ":{}|<>".

Definition is_symbol (c : char) : bool := existsb (N.eqb c) symbols.

Definition possible_characters (password : str) : Z :=
  let possible_characters := 0%Z in
  let possible_characters :=
    if existsb islower password then (possible_characters + 26)%Z
    else possible_characters in
  let possible_characters :=
    if existsb isupper password then (possible_characters + 26)%Z
    else possible_characters in
  let possible_characters :=
    if existsb isdigit password then (possible_characters + 10)%Z
    else possible_characters in
  let possible_characters :=
    if existsb is_symbol password
    then (possible_characters + Z.of_nat (List.length symbols))%Z
    else possible_characters in
  let possible_characters :=
    if existsb isspace password then (possible_characters + 1)%Z
    else possible_characters in
  possible_characters.

Definition calculate_entropy (password : str) : pynum :=
  let possible_characters := possible_characters password in
  if Z.eqb possible_characters 0 then PyInt 0
  else
    let entropy :=
      (log2 (IZR possible_characters)
       * IZR (Z.of_nat (List.length password)))%R in
    PyFloat (round2 entropy).

(** *** Crack time *)

Definition humanize (seconds : R) : string :=
  if Rlt_dec seconds 1 then "less than 1 second"
  else if Rlt_dec seconds 60 then
    string_of_Z (round_half_even seconds) ++ " seconds"
  else if Rlt_dec seconds 3600 then
    string_of_Z (round_half_even (seconds / 60)) ++ " minutes"
  else if Rlt_dec seconds 86400 then
    string_of_Z (round_half_even (seconds / 3600)) ++ " hours"
  else if Rlt_dec seconds 31536000 then
    string_of_Z (round_half_even (seconds / 86400)) ++ " days"
  else if Rlt_dec seconds (31536000 * 100) then
    string_of_Z (round_half_even (seconds / 31536000)) ++ " years"
  else "centuries or more".

Definition estimate_crack_time_at (entropy : pynum) (guesses_per_second : R)
  : result string :=
  guesses <- pow2 entropy ;;
  if Req_dec_T guesses_per_second 0 then Raise ZeroDivisionError
  else
    let seconds := (guesses / guesses_per_second)%R in
    Ok (humanize seconds).

(** The call with the default rate of [1e10] guesses per second. *)
Definition estimate_crack_time (entropy : pynum) : result string :=
  estimate_crack_time_at entropy 1e10.

(** *** The strength evaluator *)

(** The two locals the rules update: [score] and the list [feedback]. *)
Record tally : Type := { score : Z; feedback : list string }.

Definition award (t : tally) : tally :=
  {| score := score t + 1; feedback := feedback t |}.
Definition advise (msg : string) (t : tally) : tally :=
  {| score := score t; feedback := feedback t ++ [msg] |}.

Definition msg_length : string :=
  "Password must be at least 12 characters long.".
Definition msg_upper : string := "Add at least one uppercase letter.".
Definition msg_lower : string := "Add at least one lowercase letter.".
Definition msg_number : string := "Include at least one number.".
Definition msg_special : string := "Include at least one special character.".
Definition msg_identity : string :=
  "Don't use your username or email in the password.".
Definition msg_blacklist : string :=
  "This password is blacklisted (too common).".
Definition msg_passphrase : string := "👍 Good! You're using a passphrase.".
Definition msg_breached : string :=
  "⚠️ This password has appeared in a known data breach.".

Definition rule1 (password : str) (t : tally) : tally :=
  if Nat.leb 12 (List.length password) then award t
  else advise msg_length t.

Definition rule2 (password : str) (t : tally) : tally :=
  if existsb ascii_upper_letter password then award t
  else advise msg_upper t.

Definition rule3 (password : str) (t : tally) : tally :=
  if existsb ascii_lower_letter password then award t
  else advise msg_lower t.

Definition rule4 (password : str) (t : tally) : tally :=
  if existsb re_digit password then award t
  else advise msg_number t.

Definition rule5 (password : str) (t : tally) : tally :=
  if existsb is_symbol password then award t
  else advise msg_special t.

(** The condition of rule 6.  [email and ...] skips the second test for
    [None] and for the empty string alike; [split('@')[0]] is the text
    before the first [@], the whole text when there is none. *)
Definition uses_identity (username password : str) (email : option str)
  : bool :=
  contains (lower username) (lower password)
  || match email with
     | None => false
     | Some [] => false
     | Some e =>
         contains (hd [] (split_on 64%N (lower e))) (lower password)
     end.

Definition rule6 (username password : str) (email : option str) (t : tally)
  : tally :=
  if uses_identity username password email then advise msg_identity t
  else award t.

Definition rule7 (password : str) (t : tally) : tally :=
  if is_in_hashed_blacklist password then advise msg_blacklist t
  else award t.

Definition is_passphrase (password : str) : bool :=
  Nat.leb 4 (List.length (split_whitespace password))
  && forallb (fun word => Nat.ltb 3 (List.length word))
             (split_whitespace password).

Definition rule8 (password : str) (t : tally) : tally :=
  if is_passphrase password then advise msg_passphrase (award t)
  else t.

(** Rule 9 once the breach check has answered. *)
Definition rule9_on (breached : bool) (t : tally) : tally :=
  if breached then advise msg_breached t else award t.

Definition rule9 (password : str) (t : tally) : result tally :=
  breached <- is_password_breached password ;;
  Ok (rule9_on breached t).

Definition format_num (x : pynum) : string :=
  match x with
  | PyInt z => string_of_Z z
  | PyFloat r => float_repr r
  end.

Definition header_strong : string := "✅ Strong password!" ++ nl.
Definition header_moderate : string :=
  "⚠️ Moderate password." ++ nl ++ " Consider improving:" ++ nl.
Definition header_weak : string := "❌ Weak password:" ++ nl.

Definition entropy_line (entropy : pynum) : string :=
  "🔐 Entropy: " ++ format_num entropy ++ " bits".
Definition crack_time_line (crack_time : string) : string :=
  "⏱️ Estimated crack time: " ++ crack_time.

(** The tally after the eight rules that need no network. *)
Definition local_rules (username password : str) (email : option str)
  : tally :=
  let t := {| score := 0; feedback := [] |} in
  let t := rule1 password t in
  let t := rule2 password t in
  let t := rule3 password t in
  let t := rule4 password t in
  let t := rule5 password t in
  let t := rule6 username password email t in
  let t := rule7 password t in
  let t := rule8 password t in
  t.

Definition render (t : tally) : string :=
  if Z.leb 6 (score t) then
    header_strong ++ String.concat nl (feedback t)
  else if Z.leb 4 (score t) then
    header_moderate ++ String.concat nl (feedback t)
  else header_weak ++ String.concat nl (feedback t).

Definition check_password_strength
  (username password : str) (email : option str) : result string :=
  let t := local_rules username password email in
  t <- rule9 password t ;;
  let entropy := calculate_entropy password in
  crack_time <- estimate_crack_time entropy ;;
  let t := advise (entropy_line entropy) t in
  let t := advise (crack_time_line crack_time) t in
  Ok (render t).

End Module_password_checker.

(** ** Notions of the specification *)

(** The three classes of the report. *)
Inductive classification : Set := Strong | Moderate | Weak.

(** The class of a score, read off the final conditional. *)
Definition classify (score : Z) : classification :=
  if Z.leb 6 score then Strong
  else if Z.leb 4 score then Moderate
  else Weak.

Definition header (c : classification) : string :=
  match c with
  | Strong => header_strong
  | Moderate => header_moderate
  | Weak => header_weak
  end.

(** [a] occurs in [b] as a contiguous piece. *)
Definition substring (a b : str) : Prop :=
  exists before after, b = before ++ a ++ after.

(** [part] is the text of [e] before its first [@] (all of [e] when it has
    none): the local part of an address. *)
Definition text_before_at (e part : str) : Prop :=
  ~ In 64%N part /\ (e = part \/ exists rest, e = part ++ 64%N :: rest).

(** The alphabet size in the words of the specification: every class that
    has a character in the password contributes its full size once.  The
    size of the symbol class is left open. *)
Definition spec_alphabet_size (U : unicode_tables) (symbol_size : Z)
  (password : str) : Z :=
  let present (class : char -> bool) (size : Z) : Z :=
    if existsb class password then size else 0%Z in
  (present (islower U) 26 + present (isupper U) 26 + present (isdigit U) 10
   + present is_symbol symbol_size + present (isspace U) 1)%Z.

Definition spec_entropy (U : unicode_tables) (symbol_size : Z)
  (password : str) : R :=
  let size := spec_alphabet_size U symbol_size password in
  if Z.eqb size 0 then 0%R
  else round2 (log2 (IZR size) * INR (List.length password)).

(** A character of one of the five classes of the entropy estimate. *)
Definition recognised (U : unicode_tables) (c : char) : bool :=
  islower U c || isupper U c || isdigit U c || is_symbol c || isspace U c.

(** A character that widens the alphabet beyond one: every class but
    whitespace. *)
Definition widening (U : unicode_tables) (c : char) : bool :=
  islower U c || isupper U c || isdigit U c || is_symbol c.

(** A digit of an upper-case hexadecimal numeral. *)
Definition upper_hex_digit (c : char) : bool :=
  in_range 48 57 c || in_range 65 70 c.

(** One point or none, as a number. *)
Definition point (b : bool) : Z := if b then 1%Z else 0%Z.

(** The message a rule leaves when its test fails. *)
Definition unless (b : bool) (msg : string) : list string :=
  if b then [] else [msg].

(** ** The web form ([app.py]) *)

(** The report of the evaluator is held as the UTF-8 bytes of its text;
    [index] works on the text.  The decoder reads the bytes one by one,
    keeping how many continuation bytes are due and the bits read so far;
    a continuation byte that nothing announced becomes U+FFFD. *)
Module Utf8.

Definition pending : Type := (nat * N)%type.
Definition idle : pending := (O, 0%N).

Definition step (st : pending) (b : N) : pending * list N :=
  match st with
  | (O, _) =>
      if N.ltb b 128 then (idle, [b])
      else if N.ltb b 192 then (idle, [65533%N])
      else if N.ltb b 224 then ((1%nat, N.land b 31), [])
      else if N.ltb b 240 then ((2%nat, N.land b 15), [])
      else ((3%nat, N.land b 7), [])
  | (S due, bits) =>
      let bits := N.lor (N.shiftl bits 6) (N.land b 63) in
      match due with
      | O => (idle, [bits])
      | S _ => ((due, bits), [])
      end
  end.

Fixpoint decode_from (st : pending) (bytes : list N) : str :=
  match bytes with
  | [] => []
  | b :: bytes' =>
      let '(st', out) := step st b in out ++ decode_from st' bytes'
  end.

(** The state the decoder is left in. *)
Fixpoint final (st : pending) (bytes : list N) : pending :=
  match bytes with
  | [] => st
  | b :: bytes' => final (fst (step st b)) bytes'
  end.

Definition decode (s : string) : str := decode_from idle (lit s).

(** Bytes that end on a character boundary. *)
Definition whole (s : string) : bool :=
  match final idle (lit s) with
  | (O, _) => true
  | _ => false
  end.

End Utf8.

(** [sep.join(parts)]. *)
Fixpoint join (sep : str) (parts : list str) : str :=
  match parts with
  | [] => []
  | [part] => part
  | part :: parts' => part ++ sep ++ join sep parts'
  end.

(** What the form handler can end in besides its page. *)
Inductive app_exn : Set :=
| CheckerRaised (e : exn)   (* the evaluator raised *)
| IndexError                (* [split(":")[1]] or [split()[0]] out of range *)
| FloatValueError.          (* [float] of a text that is no number *)

Inductive app_result (A : Type) : Type :=
| Done (a : A)
| Failed (e : app_exn).
Arguments Done {A} a.
Arguments Failed {A} e.

(** The row of [password_results] the handler builds. *)
Record password_result : Type := {
  pr_username : str;
  pr_email : str;
  pr_entropy : pynum;
  pr_crack_time : str;
  pr_strength : str;
  pr_feedback : str
}.

(** The two values handed to the template. *)
Record page : Type := {
  page_feedback : option str;
  page_strength : option str
}.

Inductive request : Type :=
| GET
| POST (username email password : str).

Section Module_app.

Variable U : unicode_tables.
Variable get : str -> http_outcome.
Variable float_repr : R -> string.
(** [float(text)]: the number, or nothing where Python raises
    [ValueError]. *)
Variable parse_float : str -> option R.

Fixpoint lstrip (s : str) : str :=
  match s with
  | [] => []
  | c :: s' => if isspace U c then lstrip s' else s
  end.

(** [s.strip()]. *)
Definition strip (s : str) : str := rev (lstrip (rev (lstrip s))).

(** [lines[1:-2]] for four lines or more, [lines[1:]] otherwise, joined
    and stripped. *)
Definition core_feedback_of (feedback : str) : str :=
  let lines := split_on 10%N feedback in
  let core_feedback_lines :=
    if Nat.leb 4 (List.length lines)
    then firstn (List.length lines - 3) (skipn 1 lines)
    else skipn 1 lines in
  strip (join [10%N] core_feedback_lines).

(** [next((line for line in ... if needle in line), None)]. *)
Definition first_line_with (needle : str) (feedback : str) : option str :=
  find (contains needle) (split_on 10%N feedback).

Definition entropy_of (feedback : str) : app_result pynum :=
  match first_line_with (lit "Entropy") feedback with
  | Some (c :: l) =>
      match nth_error (split_on 58%N (c :: l)) 1 with
      | None => Failed IndexError
      | Some field =>
          match split_whitespace U (strip field) with
          | [] => Failed IndexError
          | number :: _ =>
              match parse_float number with
              | Some r => Done (PyFloat r)
              | None => Failed FloatValueError
              end
          end
      end
  | _ => Done (PyInt 0)
  end.

Definition crack_time_of (feedback : str) : app_result str :=
  match first_line_with (lit "crack time") feedback with
  | Some (c :: l) =>
      match nth_error (split_on 58%N (c :: l)) 1 with
      | None => Failed IndexError
      | Some field => Done (strip field)
      end
  | _ => Done (lit "Unknown")
  end.

(** The label read off the first characters: the check mark U+2705, the
    warning sign U+26A0 with its variation selector U+FE0F. *)
Definition strength_of (feedback : str) : str :=
  if starts_with [9989%N] feedback then lit "strong"
  else if starts_with [9888%N; 65039%N] feedback then lit "moderate"
  else lit "weak".

(** [index]: the page, and for a submitted form the row offered to the
    database.  Whether the row is stored or the session raises changes
    neither: the handler catches that exception and prints it. *)
Definition index (req : request)
  : app_result (page * option password_result) :=
  match req with
  | GET => Done ({| page_feedback := None; page_strength := None |}, None)
  | POST username email password =>
      match check_password_strength U get float_repr username password
              (Some email) with
      | Raise e => Failed (CheckerRaised e)
      | Ok report =>
          let feedback := Utf8.decode report in
          let core_feedback := core_feedback_of feedback in
          match entropy_of feedback with
          | Failed e => Failed e
          | Done entropy =>
              match crack_time_of feedback with
              | Failed e => Failed e
              | Done crack_time =>
                  let strength := strength_of feedback in
                  Done ({| page_feedback := Some feedback;
                           page_strength := Some strength |},
                        Some {| pr_username := username;
                                pr_email := email;
                                pr_entropy := entropy;
                                pr_crack_time := crack_time;
                                pr_strength := strength;
                                pr_feedback := core_feedback |})
              end
          end
      end
  end.

End Module_app.

(** The label of a class, as [index] names it. *)
Definition label (c : classification) : str :=
  match c with
  | Strong => lit "strong"
  | Moderate => lit "moderate"
  | Weak => lit "weak"
  end.

(** The characters of the text of a Python number: digits, sign, point,
    exponent mark and the letters of [inf] and [nan]. *)
Definition number_char (c : N) : bool :=
  ascii_digit c || existsb (N.eqb c) [43; 45; 46; 101; 105; 110; 102; 97]%N.

Definition number_text (s : string) : bool :=
  match lit s with
  | [] => false
  | t => forallb number_char t
  end.

(** The messages a rule can leave. *)
Definition rule_messages : list string :=
  [msg_length; msg_upper; msg_lower; msg_number; msg_special; msg_identity;
   msg_blacklist; msg_passphrase; msg_breached].

(** The lines of a header. *)
Definition header_lines (c : classification) : list str :=
  match c with
  | Strong => [Utf8.decode "✅ Strong password!"]
  | Moderate =>
      [Utf8.decode "⚠️ Moderate password."; lit " Consider improving:"]
  | Weak => [Utf8.decode "❌ Weak password:"]
  end.

(** Tokens and the blank before each: the room a split text takes. *)
Definition room (tokens : list str) : nat :=
  list_sum (List.map (fun w => S (List.length w)) tokens).

(** Digits and the minus sign: the characters of a printed integer. *)
Definition digit_or_minus (c : N) : bool := ascii_digit c || N.eqb c 45.

(** The characters of a crack-time text: small letters, digits, the minus
    sign and the blank. *)
Definition crack_char (c : N) : bool :=
  ascii_lower_letter c || digit_or_minus c || N.eqb c 32.

(** A crack-time text: of those characters, with no blank at either
    end. *)
Definition crack_text (t : str) : bool :=
  forallb crack_char t
  && match t with c :: _ => negb (N.eqb c 32) | [] => false end
  && match rev t with c :: _ => negb (N.eqb c 32) | [] => false end.

(** A line that [index] passes over: no newline in it, and neither of the
    two words it searches for. *)
Definition quiet_line (t : str) : bool :=
  negb (existsb (N.eqb 10%N) t)
  && negb (contains (lit "Entropy") t)
  && negb (contains (lit "crack time") t).

(** The three signs a line of feedback can start with: U+1F44D, U+26A0
    and U+1F510. *)
Definition report_signs : list N := [128077; 9888; 128272]%N.

(** A text that starts with an ASCII character that is no whitespace, or
    with one of the signs. *)
Definition firm_start (t : str) : bool :=
  match t with
  | c :: _ =>
      (is_ascii c && negb (ascii_space c)) || existsb (N.eqb c) report_signs
  | [] => false
  end.

(** A text that ends with an ASCII character that is no whitespace. *)
Definition firm_end (t : str) : bool :=
  match rev t with
  | c :: _ => is_ascii c && negb (ascii_space c)
  | [] => false
  end.

(** A text that starts with an ASCII character that is no whitespace. *)
Definition ascii_start (t : str) : bool :=
  match t with
  | c :: _ => is_ascii c && negb (ascii_space c)
  | [] => false
  end.

(** The numbers from [lo] on, [n] of them. *)
Definition N_range (lo : N) (n : nat) : list N :=
  List.map (fun i => (lo + N.of_nat i)%N) (seq 0 n).

(** The characters of the three kinds of text, listed. *)
Definition number_chars : list N :=
  N_range 48 10 ++ [43; 45; 46; 101; 105; 110; 102; 97]%N.
Definition crack_chars : list N :=
  N_range 97 26 ++ N_range 48 10 ++ [45; 32]%N.

(** The tables do not count the signs of the report as whitespace. *)
Definition signs_kept (U : unicode_tables) : bool :=
  forallb (fun c => negb (isspace U c)) report_signs.

(** The two informational lines up to their colon. *)
Definition entropy_head : str := Utf8.decode "🔐 Entropy".
Definition crack_head : str := Utf8.decode "⏱️ Estimated crack time".

(** The text of the entropy line and of the crack-time line, for the text
    of the number and of the estimate. *)
Definition entropy_text (number : str) : str :=
  entropy_head ++ 58%N :: 32%N :: number ++ lit " bits".
Definition crack_time_text (estimate : str) : str :=
  crack_head ++ 58%N :: 32%N :: estimate.

(** ** Text lemmas *)

Lemma starts_with_spec (a b : str) :
  starts_with a b = true <-> exists after, b = a ++ after.
Proof.
  revert b; induction a as [|x a IH]; intros b; simpl.
  - split; [intros _; now exists b | reflexivity].
  - destruct b as [|y b].
    + split; [discriminate | intros [after H]; discriminate].
    + rewrite andb_true_iff, N.eqb_eq, IH. split.
      * intros [-> [after ->]]. now exists after.
      * intros [after H]. injection H as -> ->. split; [reflexivity|].
        now exists after.
Qed.

Lemma contains_spec (a b : str) : contains a b = true <-> substring a b.
Proof.
  unfold substring. induction b as [|y b IH].
  - simpl. rewrite orb_false_r, starts_with_spec. split.
    + intros [after H]. now exists [], after.
    + intros [before [after H]]. destruct before; [now exists after|].
      discriminate.
  - cbn [contains]. rewrite orb_true_iff, starts_with_spec, IH. split.
    + intros [[after H] | [before [after H]]].
      * now exists [], after.
      * exists (y :: before), after. now rewrite H.
    + intros [before [after H]]. destruct before as [|z before].
      * left. now exists after.
      * right. injection H as _ H. now exists before, after.
Qed.

Lemma contains_nil (b : str) : contains [] b = true.
Proof. destruct b; reflexivity. Qed.

Lemma split_on_cons (sep : char) (s : str) :
  exists part parts, split_on sep s = part :: parts.
Proof.
  induction s as [|c s [part [parts IH]]]; simpl.
  - now exists [], [].
  - destruct (N.eqb c sep).
    + now exists [], (split_on sep s).
    + rewrite IH. now exists (c :: part), parts.
Qed.

Lemma first_part_spec (s : str) :
  text_before_at s (hd [] (split_on 64%N s)).
Proof.
  unfold text_before_at. induction s as [|c s [IHn IHs]]; simpl.
  - split; [tauto | now left].
  - destruct (N.eqb_spec c 64%N) as [-> | Hc]; simpl.
    + split; [tauto | right; now exists s].
    + destruct (split_on_cons 64%N s) as [part [parts E]].
      rewrite E in *. simpl in *. split.
      * intros [H | H]; [now apply Hc | now apply IHn].
      * destruct IHs as [-> | [rest ->]]; [now left | right; now exists rest].
Qed.

Lemma text_before_at_hd (e part : str) :
  text_before_at e part -> hd [] (split_on 64%N e) = part.
Proof.
  revert e. induction part as [|x part IH]; intros e [Hn He].
  - destruct He as [-> | [rest ->]]; reflexivity.
  - assert (Hx : N.eqb x 64%N = false).
    { apply N.eqb_neq. intros ->. apply Hn. now left. }
    assert (He' : exists e', e = x :: e' /\ text_before_at e' part).
    { destruct He as [-> | [rest ->]].
      - exists part. split; [reflexivity|]. split; [|now left].
        intros H. apply Hn. now right.
      - exists (part ++ 64%N :: rest). split; [reflexivity|].
        split; [|right; now exists rest].
        intros H. apply Hn. now right. }
    destruct He' as [e' [-> He']]. specialize (IH e' He').
    simpl. rewrite Hx.
    destruct (split_on_cons 64%N e') as [p0 [ps E]].
    rewrite E in *. simpl in *. now rewrite IH.
Qed.

Lemma str_eqb_eq (a b : str) : str_eqb a b = true <-> a = b.
Proof.
  unfold str_eqb. destruct (list_eq_dec N.eq_dec a b); split;
    congruence.
Qed.

Lemma lower_nil (U : unicode_tables) : lower U [] = [].
Proof. reflexivity. Qed.

(** ** The digest is forty upper-case hexadecimal digits *)

Lemma be_bytes_length (n : nat) (x : N) : List.length (Sha1.be_bytes n x) = n.
Proof.
  revert x; induction n as [|n IH]; intros x; simpl; [reflexivity|].
  rewrite length_app, IH. simpl. lia.
Qed.

Lemma be_bytes_small (n : nat) (x : N) :
  Forall (fun b => (b < 256)%N) (Sha1.be_bytes n x).
Proof.
  revert x; induction n as [|n IH]; intros x; simpl; [constructor|].
  apply Forall_app. split; [apply IH|]. constructor; [|constructor].
  change 255%N with (N.ones 8). rewrite N.land_ones.
  apply N.mod_lt. discriminate.
Qed.

Lemma digest_shape (msg : list N) :
  List.length (Sha1.digest msg) = 20%nat
  /\ Forall (fun b => (b < 256)%N) (Sha1.digest msg).
Proof.
  unfold Sha1.digest.
  destruct (Sha1.blocks _ _ _) as [[[[h0 h1] h2] h3] h4].
  split.
  - rewrite !length_app, !be_bytes_length. reflexivity.
  - rewrite !Forall_app. repeat split; apply be_bytes_small.
Qed.

Lemma hex_digit_upper (x : N) : (x < 16)%N -> upper_hex_digit (Sha1.hex_digit x) = true.
Proof.
  intros H. unfold Sha1.hex_digit, upper_hex_digit, in_range.
  destruct (N.ltb_spec x 10).
  - apply orb_true_iff. left. apply andb_true_iff.
    split; apply N.leb_le; lia.
  - apply orb_true_iff. right. apply andb_true_iff.
    split; apply N.leb_le; lia.
Qed.

Lemma hex_upper_shape (bytes : list N) :
  Forall (fun b => (b < 256)%N) bytes ->
  List.length (Sha1.hex_upper bytes) = (2 * List.length bytes)%nat
  /\ forallb upper_hex_digit (Sha1.hex_upper bytes) = true.
Proof.
  unfold Sha1.hex_upper.
  induction 1 as [|b bytes Hb _ [IHl IHf]]; [split; reflexivity|].
  cbn [flat_map List.length app forallb]. split; [lia|].
  rewrite IHf, !hex_digit_upper; [reflexivity| |].
  - change 15%N with (N.ones 4). rewrite N.land_ones.
    apply N.mod_lt. discriminate.
  - rewrite N.shiftr_div_pow2. apply N.Div0.div_lt_upper_bound.
    exact Hb.
Qed.

Lemma sha1_hex_upper_shape (s : str) :
  List.length (Sha1.sha1_hex_upper s) = 40%nat
  /\ forallb upper_hex_digit (Sha1.sha1_hex_upper s) = true.
Proof.
  unfold Sha1.sha1_hex_upper.
  destruct (digest_shape (Sha1.encode_utf8 s)) as [Hl Hs].
  destruct (hex_upper_shape _ Hs) as [Hl' Hf].
  rewrite Hl in Hl'. split; assumption.
Qed.

(** ** The tally of the rules *)

(** The eight local rules in closed form: each test is made on the
    password alone, whatever the other tests gave; the score counts the
    tests that succeeded and the feedback lists, in the order of the rules,
    one message per failed test (rule 8: its message on success). *)
Lemma local_rules_tally (U : unicode_tables) (u p : str) (e : option str) :
  let r1 := Nat.leb 12 (List.length p) in
  let r2 := existsb ascii_upper_letter p in
  let r3 := existsb ascii_lower_letter p in
  let r4 := existsb (re_digit U) p in
  let r5 := existsb is_symbol p in
  let r6 := negb (uses_identity U u p e) in
  let r7 := negb (is_in_hashed_blacklist p) in
  let r8 := is_passphrase U p in
  score (local_rules U u p e)
  = (point r1 + point r2 + point r3 + point r4 + point r5 + point r6
     + point r7 + point r8)%Z
  /\ feedback (local_rules U u p e)
     = unless r1 msg_length ++ unless r2 msg_upper ++ unless r3 msg_lower
       ++ unless r4 msg_number ++ unless r5 msg_special
       ++ unless r6 msg_identity ++ unless r7 msg_blacklist
       ++ unless (negb r8) msg_passphrase.
Proof.
  unfold local_rules, rule1, rule2, rule3, rule4, rule5, rule6, rule7, rule8.
  destruct (Nat.leb 12 (List.length p)), (existsb ascii_upper_letter p),
    (existsb ascii_lower_letter p), (existsb (re_digit U) p),
    (existsb is_symbol p), (uses_identity U u p e),
    (is_in_hashed_blacklist p), (is_passphrase U p);
    split; reflexivity.
Qed.

Lemma point_range (b : bool) : (0 <= point b <= 1)%Z.
Proof. destruct b; simpl; lia. Qed.

Lemma local_rules_score (U : unicode_tables) (u p : str) (e : option str) :
  (0 <= score (local_rules U u p e) <= 8)%Z.
Proof.
  destruct (local_rules_tally U u p e) as [-> _].
  pose proof (point_range (Nat.leb 12 (List.length p))).
  pose proof (point_range (existsb ascii_upper_letter p)).
  pose proof (point_range (existsb ascii_lower_letter p)).
  pose proof (point_range (existsb (re_digit U) p)).
  pose proof (point_range (existsb is_symbol p)).
  pose proof (point_range (negb (uses_identity U u p e))).
  pose proof (point_range (negb (is_in_hashed_blacklist p))).
  pose proof (point_range (is_passphrase U p)).
  lia.
Qed.

Lemma rule9_on_tally (breached : bool) (t : tally) :
  score (rule9_on breached t) = (score t + point (negb breached))%Z
  /\ feedback (rule9_on breached t)
     = feedback t ++ unless (negb breached) msg_breached.
Proof.
  destruct breached; simpl; split;
    rewrite ?app_nil_r, ?Z.add_0_r; reflexivity.
Qed.

Lemma render_header (t : tally) :
  render t = (header (classify (score t)) ++ String.concat nl (feedback t))%string.
Proof.
  unfold render, classify.
  destruct (Z.leb 6 (score t)); [reflexivity|].
  destruct (Z.leb 4 (score t)); reflexivity.
Qed.

(** The evaluator unfolded: the breach check, then the crack time of the
    entropy, then the report. *)
Lemma check_password_strength_eq (U : unicode_tables)
  (get : str -> http_outcome) (float_repr : R -> string)
  (u p : str) (e : option str) :
  check_password_strength U get float_repr u p e
  = (breached <- is_password_breached get p ;;
     crack_time <- estimate_crack_time (calculate_entropy U p) ;;
     Ok (render
           (advise (crack_time_line crack_time)
              (advise (entropy_line float_repr (calculate_entropy U p))
                 (rule9_on breached (local_rules U u p e)))))).
Proof.
  unfold check_password_strength, rule9.
  destruct (is_password_breached get p); reflexivity.
Qed.

(** ** The claims *)

(** C9.  The blacklist check takes the password and nothing else: it is a
    function of the text, with no transport to call.  It answers whether
    the SHA-1 digest of the UTF-8 bytes, written as forty upper-case
    hexadecimal digits, is one of the two digests of [HASHED_BLACKLIST];
    the digests of "password" and "123456" are. *)
Theorem blacklist_is_sha1_membership :
  (forall password,
      is_in_hashed_blacklist password = true
      <-> In (Sha1.sha1_hex_upper password) HASHED_BLACKLIST)
  /\ (forall password,
         List.length (Sha1.sha1_hex_upper password) = 40%nat
         /\ forallb upper_hex_digit (Sha1.sha1_hex_upper password) = true)
  /\ HASHED_BLACKLIST
     = [Sha1.sha1_hex_upper (lit "password");
        Sha1.sha1_hex_upper (lit "123456")]
  /\ is_in_hashed_blacklist (lit "password") = true
  /\ is_in_hashed_blacklist (lit "123456") = true.
Proof.
  split; [|split; [|split; [|split]]].
  - intros password. unfold is_in_hashed_blacklist.
    rewrite existsb_exists. split.
    + intros [d [Hin Heq]]. apply str_eqb_eq in Heq. now subst.
    + intros Hin. exists (Sha1.sha1_hex_upper password).
      split; [exact Hin | now apply str_eqb_eq].
  - exact sha1_hex_upper_shape.
  - vm_compute. reflexivity.
  - vm_compute. reflexivity.
  - vm_compute. reflexivity.
Qed.

(** C10.  With the empty username rule 6 fails for every password and
    every email: the score stays as it was and the message about username
    and email is appended, the empty text being a piece of every text. *)
Theorem empty_username_fails_rule6 :
  forall (U : unicode_tables) (password : str) (email : option str)
         (t : tally),
    substring (lower U []) (lower U password)
    /\ rule6 U [] password email t = advise msg_identity t
    /\ score (rule6 U [] password email t) = score t
    /\ feedback (rule6 U [] password email t) = feedback t ++ [msg_identity].
Proof.
  intros U password email t.
  assert (H : rule6 U [] password email t = advise msg_identity t).
  { unfold rule6, uses_identity. rewrite lower_nil, contains_nil.
    reflexivity. }
  split; [|rewrite H; repeat split; reflexivity].
  apply contains_spec. rewrite lower_nil. apply contains_nil.
Qed.

(** C2.  For every username, password, email and answer of the breach
    check the score after the nine rules lies between 0 and 9; the two
    informational lines leave it as it is; the report opens with the header
    of the class of that score, also in every report that
    [check_password_strength] returns; and the class is Strong from 6 on,
    Moderate for 4 and 5, Weak below 4, one class for every integer. *)
Theorem score_range_and_classification :
  forall (U : unicode_tables) (username password : str)
         (email : option str),
    let final breached :=
      rule9_on breached (local_rules U username password email) in
    (forall breached, (0 <= score (final breached) <= 9)%Z)
    /\ (forall breached line1 line2,
           score (advise line2 (advise line1 (final breached)))
           = score (final breached)
           /\ render (advise line2 (advise line1 (final breached)))
              = (header (classify (score (final breached)))
                 ++ String.concat nl
                      (feedback (final breached) ++ [line1; line2]))%string)
    /\ (forall get float_repr report,
           check_password_strength U get float_repr username password email
           = Ok report ->
           exists breached lines,
             is_password_breached get password = Ok breached
             /\ report
                = (header (classify (score (final breached)))
                   ++ String.concat nl lines)%string)
    /\ (forall s : Z,
           (classify s = Strong <-> (6 <= s)%Z)
           /\ (classify s = Moderate <-> (4 <= s < 6)%Z)
           /\ (classify s = Weak <-> (s < 4)%Z)).
Proof.
  intros U username password email final.
  assert (Hrender : forall breached line1 line2,
             render (advise line2 (advise line1 (final breached)))
             = (header (classify (score (final breached)))
                ++ String.concat nl
                     (feedback (final breached) ++ [line1; line2]))%string).
  { intros. rewrite render_header. simpl. now rewrite <- app_assoc. }
  split; [|split; [|split]].
  - intros breached. unfold final.
    destruct (rule9_on_tally breached
                (local_rules U username password email)) as [-> _].
    pose proof (local_rules_score U username password email).
    pose proof (point_range (negb breached)). lia.
  - intros breached line1 line2. split; [reflexivity | apply Hrender].
  - intros get float_repr report. rewrite check_password_strength_eq.
    destruct (is_password_breached get password) as [breached|];
      [|discriminate].
    cbn [bind].
    destruct (estimate_crack_time (calculate_entropy U password))
      as [crack_time|]; [|discriminate].
    cbn [bind]. intros H. injection H as <-.
    exists breached. eexists. split; [reflexivity|]. apply Hrender.
  - intros s. unfold classify.
    destruct (Z.leb_spec 6 s); [|destruct (Z.leb_spec 4 s)];
      repeat split; intros; try discriminate; try lia; reflexivity.
Qed.

(** C1 (what the code does when the lookup fails).  A transport that
    raises makes the breach check raise, and so the whole evaluation; a
    response with status 200 whose body has a line without a count makes
    the unpacking of that line raise [ValueError], again through the whole
    evaluation.  Only a status other than 200 is answered with [False]. *)
Theorem breach_lookup_failures_propagate :
  let down : str -> http_outcome := fun _ => ConnectionFailed in
  let garbled : str -> http_outcome :=
    fun _ => Response 200 (lit "0018A45C4D1DEF81644B54AB7F969B88D65") in
  (forall password,
      is_password_breached down password = Raise RequestException)
  /\ (forall password,
         is_password_breached garbled password = Raise ValueError)
  /\ (forall U float_repr username password email,
         check_password_strength U down float_repr username password email
         = Raise RequestException)
  /\ (forall U float_repr username password email,
         check_password_strength U garbled float_repr username password email
         = Raise ValueError)
  /\ (forall password status_code text,
         is_password_breached (fun _ => Response status_code text) password
         = if Z.eqb status_code 200
           then scan_hashes (skipn 5 (Sha1.sha1_hex_upper password))
                            (List.map (split_on 58%N) (splitlines text))
           else Ok false).
Proof.
  intros down garbled.
  assert (Hdown : forall password,
             is_password_breached down password = Raise RequestException)
    by reflexivity.
  assert (Hgarbled : forall password,
             is_password_breached garbled password = Raise ValueError).
  { intros password. unfold is_password_breached, garbled.
    change (splitlines (lit "0018A45C4D1DEF81644B54AB7F969B88D65"))
      with [lit "0018A45C4D1DEF81644B54AB7F969B88D65"].
    reflexivity. }
  split; [exact Hdown|]. split; [exact Hgarbled|]. split; [|split].
  - intros. rewrite check_password_strength_eq, Hdown. reflexivity.
  - intros. rewrite check_password_strength_eq, Hgarbled. reflexivity.
  - intros. unfold is_password_breached.
    destruct (Z.eqb status_code 200); reflexivity.
Qed.

(** C6 (as amended).  Rule 6 awards its point exactly when the lower-cased
    password contains neither the lower-cased username nor, for an email
    that is given and not empty, the text of the lower-cased email before
    its first [@]; for no email and for the empty email the username alone
    decides.  When the point is not awarded the message is appended.  For
    username alice, password alice123XYZ! and email alice@x.com the rule
    fails. *)
Theorem rule6_awards_iff :
  forall (U : unicode_tables) (username password : str)
         (email : option str) (t : tally),
    (rule6 U username password email t = award t
     \/ rule6 U username password email t = advise msg_identity t)
    /\ (rule6 U username password email t = award t
        <-> ~ substring (lower U username) (lower U password)
            /\ (forall e part,
                   email = Some e -> e <> [] ->
                   text_before_at (lower U e) part ->
                   ~ substring part (lower U password)))
    /\ rule6 U (lit "alice") (lit "alice123XYZ!") (Some (lit "alice@x.com")) t
       = advise msg_identity t.
Proof.
  intros U username password email t.
  assert (Hneq : award t <> advise msg_identity t).
  { unfold award, advise. intros H. injection H as Hs _. lia. }
  split; [|split].
  - unfold rule6. destruct (uses_identity U username password email);
      [now right | now left].
  - unfold rule6.
    destruct (uses_identity U username password email) eqn:Hu.
    + split; [intros H; now symmetry in H|].
      intros [Hname Hmail]. exfalso. unfold uses_identity in Hu.
      apply orb_true_iff in Hu. destruct Hu as [Hu | Hu].
      * apply Hname. now apply contains_spec.
      * destruct email as [[|c e]|]; try discriminate.
        apply (Hmail (c :: e) (hd [] (split_on 64%N (lower U (c :: e)))));
          [reflexivity | discriminate | apply first_part_spec |].
        now apply contains_spec.
    + split; [intros _|reflexivity].
      unfold uses_identity in Hu. apply orb_false_iff in Hu.
      destruct Hu as [Hname Hmail]. split.
      * intros H. apply contains_spec in H. congruence.
      * intros e part -> He Hpart H. apply contains_spec in H.
        apply text_before_at_hd in Hpart. subst part.
        destruct e as [|c e]; congruence.
  - reflexivity.
Qed.

(** C6 (as stated, refuted).  The empty email is a given email, and its
    text before [@], the empty text, is a piece of every password; yet for
    username bob and password x the rule awards its point. *)
Lemma rule6_empty_email_skipped :
  let t := {| score := 0; feedback := [] |} in
  rule6 ascii_only (lit "bob") (lit "x") (Some []) t = award t
  /\ text_before_at (lower ascii_only []) []
  /\ substring [] (lower ascii_only (lit "x")).
Proof.
  split; [reflexivity|]. split.
  - apply (first_part_spec []).
  - now exists [], (lower ascii_only (lit "x")).
Qed.

(** ** Rounding and logarithms *)

Section Real_lemmas.
Local Open Scope R_scope.

Lemma round_half_even_near (x : R) :
  x - 1 / 2 <= IZR (round_half_even x) <= x + 1 / 2.
Proof.
  unfold round_half_even. destruct (Zfloor_bound x) as [H1 H2].
  destruct (Rlt_dec (x - IZR (Zfloor x)) (1 / 2)); [lra|].
  destruct (Rlt_dec (1 / 2) (x - IZR (Zfloor x))); [rewrite plus_IZR; lra|].
  destruct (Z.even (Zfloor x)); [lra | rewrite plus_IZR; lra].
Qed.

Lemma round_half_even_le (x : R) (n : Z) :
  x <= IZR n -> (round_half_even x <= n)%Z.
Proof.
  intros H. destruct (round_half_even_near x) as [_ H2].
  assert (H3 : IZR (round_half_even x) < IZR (n + 1))
    by (rewrite plus_IZR; lra).
  apply lt_IZR in H3. lia.
Qed.

Lemma round_half_even_ge (x : R) (n : Z) :
  IZR n <= x -> (n <= round_half_even x)%Z.
Proof.
  intros H. destruct (round_half_even_near x) as [H1 _].
  assert (H3 : IZR (n - 1) < IZR (round_half_even x))
    by (rewrite minus_IZR; lra).
  apply lt_IZR in H3. lia.
Qed.

Lemma round_half_even_IZR (n : Z) : round_half_even (IZR n) = n.
Proof.
  apply Z.le_antisymm;
    [apply round_half_even_le | apply round_half_even_ge]; lra.
Qed.

Lemma round2_le (x : R) (n : Z) : x * 100 <= IZR n -> round2 x <= IZR n / 100.
Proof.
  intros H. unfold round2. apply round_half_even_le in H.
  apply IZR_le in H. lra.
Qed.

Lemma round2_ge (x : R) (n : Z) : IZR n <= x * 100 -> IZR n / 100 <= round2 x.
Proof.
  intros H. unfold round2. apply round_half_even_ge in H.
  apply IZR_le in H. lra.
Qed.

Lemma round2_0 : round2 0 = 0.
Proof.
  unfold round2. replace (0 * 100) with (IZR 0) by lra.
  rewrite round_half_even_IZR. lra.
Qed.

Lemma ln_2_pos : 0 < ln 2.
Proof. pose proof ln_lt_2. lra. Qed.

Lemma ln_le_compat (x y : R) : 0 < x -> x <= y -> ln x <= ln y.
Proof.
  intros Hx [H | ->]; [left; now apply ln_increasing | right; reflexivity].
Qed.

Lemma log2_1 : log2 1 = 0.
Proof. unfold log2. rewrite ln_1. unfold Rdiv. apply Rmult_0_l. Qed.

Lemma log2_nonneg (x : R) : 1 <= x -> 0 <= log2 x.
Proof.
  intros H. unfold log2. pose proof ln_2_pos.
  assert (0 <= ln x) by (rewrite <- ln_1; apply ln_le_compat; lra).
  apply Rmult_le_pos; [assumption|]. left. now apply Rinv_0_lt_compat.
Qed.

Lemma log2_ge_1 (x : R) : 2 <= x -> 1 <= log2 x.
Proof.
  intros H. unfold log2. pose proof ln_2_pos.
  assert (ln 2 <= ln x) by (apply ln_le_compat; lra).
  apply (Rmult_le_reg_r (ln 2)); [assumption|].
  unfold Rdiv. rewrite Rmult_assoc, Rinv_l; lra.
Qed.

(** Comparing a logarithm with a ratio is comparing two integer powers. *)
Lemma log2_times_ge (a : Z) (p q : nat) :
  (0 < a)%Z -> (2 ^ Z.of_nat p <= a ^ Z.of_nat q)%Z ->
  INR p <= log2 (IZR a) * INR q.
Proof.
  intros Ha H. apply IZR_le in H. rewrite <- !pow_IZR in H.
  assert (Ha' : 0 < IZR a) by now apply IZR_lt.
  assert (H2 : 0 < 2 ^ p) by (apply pow_lt; lra).
  apply ln_le_compat in H; [|assumption].
  rewrite !ln_pow in H by lra. pose proof ln_2_pos as L.
  unfold log2. apply (Rmult_le_reg_r (ln 2)); [assumption|].
  replace (ln (IZR a) / ln 2 * INR q * ln 2) with (INR q * ln (IZR a))
    by (field; lra).
  exact H.
Qed.

Lemma log2_times_le (a : Z) (p q : nat) :
  (0 < a)%Z -> (a ^ Z.of_nat q <= 2 ^ Z.of_nat p)%Z ->
  log2 (IZR a) * INR q <= INR p.
Proof.
  intros Ha H. apply IZR_le in H. rewrite <- !pow_IZR in H.
  assert (Ha' : 0 < IZR a) by now apply IZR_lt.
  assert (H2 : 0 < IZR a ^ q) by now apply pow_lt.
  apply ln_le_compat in H; [|assumption].
  rewrite !ln_pow in H by lra. pose proof ln_2_pos as L.
  unfold log2. apply (Rmult_le_reg_r (ln 2)); [assumption|].
  replace (ln (IZR a) / ln 2 * INR q * ln 2) with (INR q * ln (IZR a))
    by (field; lra).
  exact H.
Qed.

End Real_lemmas.

(** ** The entropy estimate *)

Lemma possible_characters_spec (U : unicode_tables) (password : str) :
  possible_characters U password = spec_alphabet_size U 20 password.
Proof.
  unfold possible_characters, spec_alphabet_size.
  change (Z.of_nat (List.length symbols)) with 20%Z.
  destruct (existsb (islower U) password), (existsb (isupper U) password),
    (existsb (isdigit U) password), (existsb is_symbol password),
    (existsb (isspace U) password); reflexivity.
Qed.

Lemma existsb_widening (U : unicode_tables) (password : str) :
  existsb (widening U) password
  = existsb (islower U) password || existsb (isupper U) password
    || existsb (isdigit U) password || existsb is_symbol password.
Proof.
  induction password as [|c password IH]; [reflexivity|].
  cbn [existsb]. rewrite IH. unfold widening.
  destruct (islower U c), (isupper U c), (isdigit U c), (is_symbol c),
    (existsb (islower U) password), (existsb (isupper U) password),
    (existsb (isdigit U) password), (existsb is_symbol password);
    reflexivity.
Qed.

Lemma forallb_negb_existsb {A : Type} (f : A -> bool) (l : list A) :
  forallb (fun x => negb (f x)) l = negb (existsb f l).
Proof.
  induction l as [|x l IH]; [reflexivity|].
  simpl. rewrite IH. now destruct (f x).
Qed.

Lemma existsb_nonempty {A : Type} (f : A -> bool) (l : list A) :
  existsb f l = true -> (1 <= List.length l)%nat.
Proof. destruct l; [discriminate | simpl; lia]. Qed.

(** Without a widening character the alphabet has at most the one
    whitespace character; with one it has ten characters or more. *)
Lemma alphabet_size_cases (U : unicode_tables) (password : str) :
  (existsb (widening U) password = false
   /\ (possible_characters U password = 0%Z
       \/ possible_characters U password = 1%Z))
  \/ (existsb (widening U) password = true
      /\ (10 <= possible_characters U password)%Z
      /\ (1 <= List.length password)%nat).
Proof.
  destruct (existsb (widening U) password) eqn:Hw.
  - right. split; [reflexivity|].
    split; [|exact (existsb_nonempty _ _ Hw)].
    rewrite existsb_widening in Hw.
    rewrite possible_characters_spec. unfold spec_alphabet_size.
    destruct (existsb (islower U) password), (existsb (isupper U) password),
      (existsb (isdigit U) password), (existsb is_symbol password),
      (existsb (isspace U) password); try discriminate; simpl; lia.
  - left. split; [reflexivity|].
    rewrite existsb_widening in Hw.
    rewrite possible_characters_spec. unfold spec_alphabet_size.
    destruct (existsb (islower U) password), (existsb (isupper U) password),
      (existsb (isdigit U) password), (existsb is_symbol password),
      (existsb (isspace U) password); try discriminate; simpl; tauto.
Qed.

Lemma entropy_positive (size : Z) (len : nat) :
  (2 <= size)%Z -> (1 <= len)%nat ->
  (1 <= round2 (log2 (IZR size) * IZR (Z.of_nat len)))%R.
Proof.
  intros Hs Hl.
  assert (H1 : (1 <= log2 (IZR size))%R)
    by (apply log2_ge_1; now apply IZR_le).
  assert (H2 : (1 <= IZR (Z.of_nat len))%R) by (apply IZR_le; lia).
  replace 1%R with (IZR 100 / 100)%R at 1 by lra.
  apply round2_ge. nra.
Qed.

(** C3 (as amended).  The entropy is the [int] 0 for an alphabet of size
    0, and otherwise the base-2 logarithm of the alphabet size times the
    length of the password, rounded to two decimals; the alphabet size
    adds, for each class with a character in the password, 26 for
    lower-case, 26 for upper-case, 10 for digits, 1 for whitespace and,
    for the symbols, the length of the symbol text, which is 20. *)
Theorem entropy_formula :
  forall (U : unicode_tables) (password : str),
    let size := spec_alphabet_size U 20 password in
    possible_characters U password = size
    /\ calculate_entropy U password
       = (if Z.eqb size 0 then PyInt 0
          else PyFloat (round2 (log2 (IZR size)
                                * INR (List.length password))))
    /\ num_val (calculate_entropy U password) = spec_entropy U 20 password
    /\ List.length symbols = 20%nat.
Proof.
  intros U password size.
  assert (H : calculate_entropy U password
              = if Z.eqb size 0 then PyInt 0
                else PyFloat (round2 (log2 (IZR size)
                                      * INR (List.length password)))).
  { unfold calculate_entropy. rewrite possible_characters_spec.
    fold size. now rewrite INR_IZR_INZ. }
  split; [apply possible_characters_spec|]. split; [exact H|].
  split; [|reflexivity].
  rewrite H. unfold spec_entropy. fold size.
  destruct (Z.eqb size 0); reflexivity.
Qed.

(** C3 (as stated, refuted).  With 21 for the symbol class the formula
    gives at least 4.39 for the password [!]; the code gives at most
    4.33. *)
Lemma entropy_symbol_class_not_21 :
  (num_val (calculate_entropy ascii_only (lit "!")) <= 433 / 100)%R
  /\ (439 / 100 <= spec_entropy ascii_only 21 (lit "!"))%R
  /\ num_val (calculate_entropy ascii_only (lit "!"))
     <> spec_entropy ascii_only 21 (lit "!").
Proof.
  assert (H1 : (num_val (calculate_entropy ascii_only (lit "!"))
                <= 433 / 100)%R).
  { change (calculate_entropy ascii_only (lit "!"))
      with (PyFloat (round2 (log2 20 * 1))).
    cbn [num_val]. apply round2_le.
    pose proof (log2_times_le 20 433 100 eq_refl) as H.
    rewrite !INR_IZR_INZ in H. cbn [Z.of_nat Pos.of_succ_nat Pos.succ] in H.
    assert (Hp : (20 ^ 100 <= 2 ^ 433)%Z) by (apply Z.leb_le; reflexivity).
    specialize (H Hp). lra. }
  assert (H2 : (439 / 100 <= spec_entropy ascii_only 21 (lit "!"))%R).
  { change (spec_entropy ascii_only 21 (lit "!"))
      with (round2 (log2 21 * INR 1)).
    apply round2_ge.
    pose proof (log2_times_ge 21 439 100 eq_refl) as H.
    rewrite !INR_IZR_INZ in *. cbn [Z.of_nat Pos.of_succ_nat Pos.succ] in *.
    assert (Hp : (2 ^ 439 <= 21 ^ 100)%Z) by (apply Z.leb_le; reflexivity).
    specialize (H Hp). lra. }
  split; [exact H1|]. split; [exact H2|]. lra.
Qed.

(** C4 (as amended).  The entropy is never negative, and it is 0 exactly
    when the password has no lower-case letter, no upper-case letter, no
    digit and no symbol: the empty password, and every password made of
    whitespace and of characters of no class. *)
Theorem entropy_zero_iff :
  forall (U : unicode_tables) (password : str),
    (0 <= num_val (calculate_entropy U password))%R
    /\ (num_val (calculate_entropy U password) = 0%R
        <-> forallb (fun c => negb (widening U c)) password = true).
Proof.
  intros U password. rewrite forallb_negb_existsb.
  unfold calculate_entropy.
  destruct (alphabet_size_cases U password)
    as [[Hw [Hs | Hs]] | [Hw [Hs Hl]]]; rewrite Hw, ?Hs.
  - simpl. split; [lra | tauto].
  - cbn [Z.eqb num_val]. rewrite log2_1, Rmult_0_l, round2_0.
    split; [lra | tauto].
  - destruct (Z.eqb_spec (possible_characters U password) 0) as [E | _];
      [lia|].
    cbn [num_val].
    pose proof (entropy_positive (possible_characters U password)
                  (List.length password)) as H.
    assert (2 <= possible_characters U password)%Z by lia.
    specialize (H ltac:(assumption) Hl).
    split; [lra|]. simpl. split; [lra | discriminate].
Qed.

(** C4 (as stated, refuted).  The password of one space is not empty and
    its character is of a recognised class, whitespace; its entropy is 0. *)
Lemma entropy_zero_whitespace_only :
  num_val (calculate_entropy ascii_only (lit " ")) = 0%R
  /\ lit " " <> []
  /\ forallb (fun c => negb (recognised ascii_only c)) (lit " ") = false.
Proof.
  split; [|split; [discriminate | reflexivity]].
  change (calculate_entropy ascii_only (lit " "))
    with (PyFloat (round2 (log2 1 * 1))).
  cbn [num_val]. rewrite log2_1, Rmult_0_l. apply round2_0.
Qed.

(** ** The crack-time estimate *)

Lemma estimate_crack_time_eq (entropy : pynum) :
  estimate_crack_time entropy
  = if Rle_dec 1024 (num_val entropy) then Raise OverflowError
    else Ok (humanize (Rpower 2 (num_val entropy) / 1e10)).
Proof.
  unfold estimate_crack_time, estimate_crack_time_at, pow2.
  destruct (Rle_dec 1024 (num_val entropy)); [reflexivity|].
  cbn [bind]. destruct (Req_dec_T 1e10 0); [lra | reflexivity].
Qed.

Lemma estimate_crack_time_overflow (entropy : pynum) :
  (1024 <= num_val entropy)%R ->
  estimate_crack_time entropy = Raise OverflowError.
Proof.
  intros H. rewrite estimate_crack_time_eq.
  destruct (Rle_dec 1024 (num_val entropy)); [reflexivity | contradiction].
Qed.

Lemma estimate_crack_time_0 :
  estimate_crack_time (PyInt 0) = Ok "less than 1 second"%string.
Proof.
  rewrite estimate_crack_time_eq. cbn [num_val].
  destruct (Rle_dec 1024 0); [lra|].
  rewrite Rpower_O by lra. unfold humanize.
  destruct (Rlt_dec (1 / 1e10) 1); [reflexivity | lra].
Qed.

(** The seven buckets of [humanize], each with its bounds. *)
Lemma humanize_buckets (seconds : R) :
  ((seconds < 1)%R -> humanize seconds = "less than 1 second"%string)
  /\ ((1 <= seconds < 60)%R ->
      humanize seconds
      = (string_of_Z (round_half_even seconds) ++ " seconds")%string)
  /\ ((60 <= seconds < 3600)%R ->
      humanize seconds
      = (string_of_Z (round_half_even (seconds / 60)) ++ " minutes")%string)
  /\ ((3600 <= seconds < 86400)%R ->
      humanize seconds
      = (string_of_Z (round_half_even (seconds / 3600)) ++ " hours")%string)
  /\ ((86400 <= seconds < 31536000)%R ->
      humanize seconds
      = (string_of_Z (round_half_even (seconds / 86400)) ++ " days")%string)
  /\ ((31536000 <= seconds < 31536000 * 100)%R ->
      humanize seconds
      = (string_of_Z (round_half_even (seconds / 31536000))
         ++ " years")%string)
  /\ ((31536000 * 100 <= seconds)%R ->
      humanize seconds = "centuries or more"%string).
Proof.
  unfold humanize.
  destruct (Rlt_dec seconds 1), (Rlt_dec seconds 60),
    (Rlt_dec seconds 3600), (Rlt_dec seconds 86400),
    (Rlt_dec seconds 31536000), (Rlt_dec seconds (31536000 * 100));
    repeat split; intros; try reflexivity; lra.
Qed.

Lemma long_password_entropy (U : unicode_tables) :
  (1024 <= num_val (calculate_entropy U (repeat 97%N 218)))%R.
Proof.
  assert (Hp : possible_characters U (repeat 97%N 218) = 26%Z)
    by (vm_compute; reflexivity).
  unfold calculate_entropy. rewrite Hp, repeat_length.
  cbn [Z.eqb num_val].
  replace 1024%R with (IZR 102400 / 100)%R by lra.
  apply round2_ge.
  assert (Hz : (2 ^ Z.of_nat 1024 <= 26 ^ Z.of_nat 218)%Z)
    by (apply Z.leb_le; vm_compute; reflexivity).
  pose proof (log2_times_ge 26 1024 218 eq_refl Hz) as H.
  rewrite !INR_IZR_INZ in H.
  change (Z.of_nat 1024) with 1024%Z in H.
  lra.
Qed.

(** C5 (where the code leaves the claim).  The estimate is the bucket of
    [2^entropy / 10^10] for every entropy below 1024, and "less than 1
    second" for entropy 0; from entropy 1024 on the power is out of the
    range of a float and the call raises [OverflowError] where the claim
    has "centuries or more".  The entropy of a password of 218 letters
    [a] is such a value. *)
Theorem crack_time_overflows_from_1024 :
  estimate_crack_time (PyFloat 1024) = Raise OverflowError
  /\ (forall entropy,
         (1024 <= num_val entropy)%R ->
         estimate_crack_time entropy = Raise OverflowError)
  /\ (forall entropy,
         (num_val entropy < 1024)%R ->
         estimate_crack_time entropy
         = Ok (humanize (Rpower 2 (num_val entropy) / 1e10)))
  /\ estimate_crack_time (PyInt 0) = Ok "less than 1 second"%string
  /\ (forall U,
         estimate_crack_time (calculate_entropy U (repeat 97%N 218))
         = Raise OverflowError).
Proof.
  split; [|split; [|split; [|split]]];
    [| | | |intros U; apply estimate_crack_time_overflow,
                        long_password_entropy].
  - apply estimate_crack_time_overflow. cbn [num_val]. lra.
  - exact estimate_crack_time_overflow.
  - intros entropy H. rewrite estimate_crack_time_eq.
    destruct (Rle_dec 1024 (num_val entropy)); [lra | reflexivity].
  - exact estimate_crack_time_0.
Qed.

(** ** Whole evaluations *)

(** C7 (where the code leaves the claim).  For the password of 218
    letters [a] the entropy is 1024 or more: whatever the username, the
    email and the answer of the breach check, the evaluation ends in
    [OverflowError] and returns no report; with a transport that answers
    200 and an empty body this is the outcome of the call. *)
Theorem long_password_gets_no_report :
  forall (U : unicode_tables) (float_repr : R -> string)
         (username : str) (email : option str),
    let password := repeat 97%N 218 in
    (forall get,
        check_password_strength U get float_repr username password email
        = (breached <- is_password_breached get password ;;
           Raise OverflowError))
    /\ check_password_strength U (fun _ => Response 200 []) float_repr
         username password email
       = Raise OverflowError.
Proof.
  intros U float_repr username email password.
  assert (H : forall get,
             check_password_strength U get float_repr username password email
             = (breached <- is_password_breached get password ;;
                Raise OverflowError)).
  { intros get. rewrite check_password_strength_eq.
    unfold password.
    rewrite (estimate_crack_time_overflow _ (long_password_entropy U)).
    reflexivity. }
  split; [exact H|]. rewrite H. reflexivity.
Qed.

(** C8 (where the code leaves the claim).  For the empty password, every
    username and email: the entropy is the [int] 0, the length rule and the
    four character rules fail and leave their messages, the score is at
    most 3 and the class is Weak whatever the breach check answers, and
    the evaluation is the breach check followed by the weak report, with
    the entropy line and the crack time "less than 1 second" last.  The
    breach check is made for the empty password as for any other and is
    not guarded: when the transport raises, the evaluation of the empty
    password ends in that exception, and when a line of the body has no
    count (an empty line as well) it ends in [ValueError]; no report is
    returned. *)
Theorem empty_password_raises_with_lookup :
  forall (U : unicode_tables) (float_repr : R -> string)
         (username : str) (email : option str),
    let tally_of : bool -> tally :=
      fun breached => rule9_on breached (local_rules U username [] email) in
    let report_of : bool -> string :=
      fun breached =>
        (header_weak
         ++ String.concat nl
              (feedback (tally_of breached)
               ++ [entropy_line float_repr (PyInt 0);
                   crack_time_line "less than 1 second"]))%string in
    calculate_entropy U [] = PyInt 0
    /\ (forall breached,
           (exists rest,
               feedback (tally_of breached)
               = [msg_length; msg_upper; msg_lower; msg_number; msg_special]
                 ++ rest)
           /\ (score (tally_of breached) <= 3)%Z
           /\ classify (score (tally_of breached)) = Weak)
    /\ (forall get,
           check_password_strength U get float_repr username [] email
           = (breached <- is_password_breached get [] ;;
              Ok (report_of breached)))
    /\ check_password_strength U (fun _ => ConnectionFailed) float_repr
         username [] email
       = Raise RequestException
    /\ check_password_strength U
         (fun _ => Response 200 (lit "0018A45C4D1DEF81644B54AB7F969B88D65"))
         float_repr username [] email
       = Raise ValueError
    /\ check_password_strength U (fun _ => Response 200 [10%N])
         float_repr username [] email
       = Raise ValueError.
Proof.
  intros U float_repr username email tally_of report_of.
  destruct (local_rules_tally U username [] email) as [Hs Hf].
  change (is_in_hashed_blacklist []) with false in Hs, Hf.
  remember (local_rules U username [] email) as local eqn:Hlocal.
  cbn in Hs, Hf.
  assert (Hscore : forall breached, (score (tally_of breached) <= 3)%Z).
  { intros breached. unfold tally_of.
    destruct (rule9_on_tally breached local) as [-> _]. rewrite Hs.
    pose proof (point_range (negb (uses_identity U username [] email))).
    pose proof (point_range (negb breached)). lia. }
  assert (Hweak : forall breached, classify (score (tally_of breached)) = Weak).
  { intros breached. specialize (Hscore breached). unfold classify.
    destruct (Z.leb_spec 6 (score (tally_of breached))); [lia|].
    destruct (Z.leb_spec 4 (score (tally_of breached)));
      [lia | reflexivity]. }
  assert (Heval : forall get,
             check_password_strength U get float_repr username [] email
             = (breached <- is_password_breached get [] ;;
                Ok (report_of breached))).
  { intros get. rewrite check_password_strength_eq.
    destruct (is_password_breached get []) as [breached|e];
      [|reflexivity].
    cbn [bind].
    change (calculate_entropy U []) with (PyInt 0).
    rewrite estimate_crack_time_0. cbn [bind].
    rewrite render_header, <- Hlocal.
    change (rule9_on breached local) with (tally_of breached).
    cbn [score advise feedback].
    rewrite Hweak. unfold report_of. rewrite <- app_assoc. reflexivity. }
  split; [reflexivity|]. split; [|split; [exact Heval|]].
  - intros breached. split; [|split; [apply Hscore | apply Hweak]].
    unfold tally_of. destruct (rule9_on_tally breached local) as [_ ->].
    rewrite Hf. eexists. cbn [app]. reflexivity.
  - split; [|split].
    + rewrite Heval. reflexivity.
    + rewrite Heval. unfold is_password_breached.
      change (splitlines (lit "0018A45C4D1DEF81644B54AB7F969B88D65"))
        with [lit "0018A45C4D1DEF81644B54AB7F969B88D65"].
      reflexivity.
    + rewrite Heval. unfold is_password_breached.
      change (splitlines [10%N]) with [@nil PyStr.char].
      reflexivity.
Qed.

(** ** Further properties of the module *)

(** X1.  The report of every evaluation that returns: the header of the class
    of the score, the messages of the nine rules in their order, the
    entropy line and the crack-time line; the score counts the rules that
    succeeded.  The evaluation returns when the breach check answers and
    the crack-time estimate does not overflow. *)
Theorem report_structure :
  forall (U : unicode_tables) (get : str -> http_outcome)
         (float_repr : R -> string) (u p : str) (e : option str),
    let r1 := Nat.leb 12 (List.length p) in
    let r2 := existsb ascii_upper_letter p in
    let r3 := existsb ascii_lower_letter p in
    let r4 := existsb (re_digit U) p in
    let r5 := existsb is_symbol p in
    let r6 := negb (uses_identity U u p e) in
    let r7 := negb (is_in_hashed_blacklist p) in
    let r8 := is_passphrase U p in
    check_password_strength U get float_repr u p e
    = (breached <- is_password_breached get p ;;
       crack_time <- estimate_crack_time (calculate_entropy U p) ;;
       Ok (header
             (classify
                (point r1 + point r2 + point r3 + point r4 + point r5
                 + point r6 + point r7 + point r8
                 + point (negb breached))%Z)
           ++ String.concat nl
                ((unless r1 msg_length ++ unless r2 msg_upper
                  ++ unless r3 msg_lower ++ unless r4 msg_number
                  ++ unless r5 msg_special ++ unless r6 msg_identity
                  ++ unless r7 msg_blacklist
                  ++ unless (negb r8) msg_passphrase)
                 ++ unless (negb breached) msg_breached
                 ++ [entropy_line float_repr (calculate_entropy U p);
                     crack_time_line crack_time]))%string).
Proof.
  intros U get float_repr u p e r1 r2 r3 r4 r5 r6 r7 r8.
  rewrite check_password_strength_eq.
  destruct (is_password_breached get p) as [breached|]; [|reflexivity].
  cbn [bind].
  destruct (estimate_crack_time (calculate_entropy U p)) as [crack_time|];
    [|reflexivity].
  cbn [bind]. f_equal. rewrite render_header. cbn [score advise feedback].
  destruct (rule9_on_tally breached (local_rules U u p e)) as [-> ->].
  destruct (local_rules_tally U u p e) as [-> ->].
  fold r1 r2 r3 r4 r5 r6 r7 r8. now rewrite <- !app_assoc.
Qed.

(** X2.  A status other than 200 is answered with [False], and rule 9
    then awards its point. *)
Theorem breach_check_fail_open_on_status :
  forall (password : str) (status_code : Z) (text : str) (t : tally),
    status_code <> 200%Z ->
    is_password_breached (fun _ => Response status_code text) password
    = Ok false
    /\ rule9 (fun _ => Response status_code text) password t = Ok (award t).
Proof.
  intros password status_code text t H.
  assert (E : is_password_breached (fun _ => Response status_code text)
                password = Ok false).
  { unfold is_password_breached.
    destruct (Z.eqb_spec status_code 200); [contradiction | reflexivity]. }
  split; [exact E|]. unfold rule9. now rewrite E.
Qed.

Lemma breach_check_fail_open_on_status_witness :
  is_password_breached (fun _ => Response 503 (lit "busy")) (lit "password")
  = Ok false
  /\ rule9 (fun _ => Response 503 (lit "busy")) (lit "password")
       {| score := 0; feedback := [] |}
     = Ok (award {| score := 0; feedback := [] |}).
Proof.
  apply (breach_check_fail_open_on_status (lit "password") 503 (lit "busy")
           {| score := 0; feedback := [] |}).
  discriminate.
Defined.



(** X4.  On a response with status 200 whose lines all have two fields the
    breach check answers whether the first field of some line is the local
    suffix of the digest. *)
Theorem breach_check_matches_suffix :
  forall (password text : str),
    Forall (fun line => List.length (split_on 58%N line) = 2%nat)
           (splitlines text) ->
    is_password_breached (fun _ => Response 200 text) password
    = Ok (existsb
            (fun line =>
               str_eqb (hd [] (split_on 58%N line))
                       (skipn 5 (Sha1.sha1_hex_upper password)))
            (splitlines text)).
Proof.
  intros password text H. unfold is_password_breached. cbn [Z.eqb negb].
  change (negb (Z.eqb 200 200)) with false. cbv iota.
  induction H as [|line lines Hline _ IH]; [reflexivity|].
  cbn [List.map scan_hashes existsb].
  destruct (split_on 58%N line) as [|f1 [|f2 [|f3 fs]]]; try discriminate.
  cbn [hd].
  destruct (str_eqb f1 (skipn 5 (Sha1.sha1_hex_upper password)));
    [reflexivity | exact IH].
Qed.

Lemma breach_check_matches_suffix_witness :
  is_password_breached
    (fun _ => Response 200 (lit "1E4C9B93F3F0682250B6CF8331B7EE68FD8:3"))
    (lit "password")
  = Ok (existsb
          (fun line =>
             str_eqb (hd [] (split_on 58%N line))
                     (skipn 5 (Sha1.sha1_hex_upper (lit "password"))))
          (splitlines (lit "1E4C9B93F3F0682250B6CF8331B7EE68FD8:3"))).
Proof.
  apply (breach_check_matches_suffix (lit "password")
           (lit "1E4C9B93F3F0682250B6CF8331B7EE68FD8:3")).
  repeat constructor.
Defined.

(** X6.  The seven buckets of the crack time, in the order of the
    thresholds. *)
Theorem crack_time_buckets :
  forall seconds : R,
    ((seconds < 1)%R -> humanize seconds = "less than 1 second"%string)
    /\ ((1 <= seconds < 60)%R ->
        humanize seconds
        = (string_of_Z (round_half_even seconds) ++ " seconds")%string)
    /\ ((60 <= seconds < 3600)%R ->
        humanize seconds
        = (string_of_Z (round_half_even (seconds / 60))
           ++ " minutes")%string)
    /\ ((3600 <= seconds < 86400)%R ->
        humanize seconds
        = (string_of_Z (round_half_even (seconds / 3600))
           ++ " hours")%string)
    /\ ((86400 <= seconds < 31536000)%R ->
        humanize seconds
        = (string_of_Z (round_half_even (seconds / 86400))
           ++ " days")%string)
    /\ ((31536000 <= seconds < 31536000 * 100)%R ->
        humanize seconds
        = (string_of_Z (round_half_even (seconds / 31536000))
           ++ " years")%string)
    /\ ((31536000 * 100 <= seconds)%R ->
        humanize seconds = "centuries or more"%string).
Proof. exact humanize_buckets. Qed.

(** ** Relations between the rules *)

Lemma split_from_room (U : unicode_tables) (s cur : str) :
  (room (split_from U cur s) <= List.length cur + List.length s + 1)%nat.
Proof.
  revert cur. induction s as [|c s IH]; intros cur.
  - destruct cur; unfold room; simpl; [lia|].
    rewrite length_app, length_rev. simpl. lia.
  - cbn [split_from]. destruct (isspace U c).
    + destruct cur as [|d cur].
      * specialize (IH []). simpl in *. lia.
      * specialize (IH []). unfold room in *. simpl in *.
        rewrite length_app, length_rev. simpl. lia.
    + specialize (IH (c :: cur)). simpl in *. lia.
Qed.

Lemma room_long_words (tokens : list str) :
  forallb (fun word => Nat.ltb 3 (List.length word)) tokens = true ->
  (5 * List.length tokens <= room tokens)%nat.
Proof.
  unfold room. induction tokens as [|w tokens IH]; intros H; [simpl; lia|].
  cbn [forallb] in H. apply andb_true_iff in H. destruct H as [Hw H].
  apply Nat.ltb_lt in Hw. specialize (IH H).
  simpl in *. lia.
Qed.

(** X5.  A password that earns the passphrase point has 19 characters or
    more (four words of four characters and three blanks at least), so it
    earns the point of the length rule as well. *)
Theorem passphrase_is_long :
  forall (U : unicode_tables) (password : str) (t : tally),
    is_passphrase U password = true ->
    (19 <= List.length password)%nat
    /\ rule1 password t = award t
    /\ score (rule8 U password (rule1 password t)) = (score t + 2)%Z.
Proof.
  intros U password t H.
  assert (Hlen : (19 <= List.length password)%nat).
  { unfold is_passphrase in H. apply andb_true_iff in H.
    destruct H as [H4 Hw]. apply Nat.leb_le in H4.
    apply room_long_words in Hw.
    pose proof (split_from_room U password []) as Hr.
    fold (split_whitespace U password) in Hr. simpl in Hr. lia. }
  assert (H1 : rule1 password t = award t).
  { unfold rule1. destruct (Nat.leb_spec 12 (List.length password));
      [reflexivity | lia]. }
  split; [exact Hlen|]. split; [exact H1|].
  unfold rule8. rewrite H, H1. simpl. lia.
Qed.

Lemma passphrase_is_long_witness :
  (19 <= List.length (lit "correct horse battery staple"))%nat
  /\ rule1 (lit "correct horse battery staple")
       {| score := 0; feedback := [] |}
     = award {| score := 0; feedback := [] |}
  /\ score (rule8 ascii_only (lit "correct horse battery staple")
              (rule1 (lit "correct horse battery staple")
                 {| score := 0; feedback := [] |}))
     = (0 + 2)%Z.
Proof.
  apply (passphrase_is_long ascii_only (lit "correct horse battery staple")
           {| score := 0; feedback := [] |}).
  reflexivity.
Defined.

Lemma point_unless (b : bool) (msg : string) :
  (point b + Z.of_nat (List.length (unless b msg)) = 1)%Z.
Proof. destruct b; reflexivity. Qed.

(** X7.  The score and the number of feedback messages of the nine rules
    add up to 8, and to 10 for a passphrase: each of the eight other
    rules leaves a point or a message, the passphrase rule both or
    neither.  So a report without a message has score 8 and is Strong, and
    a Weak report carries five messages or more. *)
Theorem score_and_messages :
  forall (U : unicode_tables) (username password : str)
         (email : option str) (breached : bool),
    let t := rule9_on breached (local_rules U username password email) in
    (score t + Z.of_nat (List.length (feedback t))
     = 8 + 2 * point (is_passphrase U password))%Z
    /\ (feedback t = [] -> score t = 8%Z /\ classify (score t) = Strong)
    /\ (classify (score t) = Weak -> (5 <= List.length (feedback t))%nat).
Proof.
  intros U username password email breached t.
  assert (H : (score t + Z.of_nat (List.length (feedback t))
               = 8 + 2 * point (is_passphrase U password))%Z).
  { subst t.
    destruct (rule9_on_tally breached
                (local_rules U username password email)) as [-> ->].
    destruct (local_rules_tally U username password email) as [-> ->].
    rewrite !length_app, !Nat2Z.inj_add.
    pose proof (point_unless (Nat.leb 12 (List.length password)) msg_length).
    pose proof (point_unless (existsb ascii_upper_letter password) msg_upper).
    pose proof (point_unless (existsb ascii_lower_letter password) msg_lower).
    pose proof (point_unless (existsb (re_digit U) password) msg_number).
    pose proof (point_unless (existsb is_symbol password) msg_special).
    pose proof (point_unless (negb (uses_identity U username password email))
                  msg_identity).
    pose proof (point_unless (negb (is_in_hashed_blacklist password))
                  msg_blacklist).
    pose proof (point_unless (negb breached) msg_breached).
    assert (Z.of_nat (List.length
                        (unless (negb (is_passphrase U password))
                           msg_passphrase))
            = point (is_passphrase U password))
      by (destruct (is_passphrase U password); reflexivity).
    lia. }
  split; [exact H|].
  pose proof (point_range (is_passphrase U password)) as Hp.
  split.
  - intros E. rewrite E in H. simpl in H.
    assert (Hm : is_passphrase U password = false).
    { destruct (is_passphrase U password) eqn:Hp'; [|reflexivity].
      exfalso. subst t.
      destruct (rule9_on_tally breached
                  (local_rules U username password email)) as [_ Hf].
      destruct (local_rules_tally U username password email) as [_ Hl].
      rewrite Hf, Hl, Hp' in E. simpl in E.
      apply (f_equal (@List.length string)) in E.
      rewrite !length_app in E. simpl in E. lia. }
    rewrite Hm in H. simpl in H.
    assert (score t = 8%Z) by lia. split; [assumption|].
    unfold classify. destruct (Z.leb_spec 6 (score t)); [reflexivity | lia].
  - unfold classify.
    destruct (Z.leb_spec 6 (score t)); [discriminate|].
    destruct (Z.leb_spec 4 (score t)); [discriminate|]. intros _. lia.
Qed.

Lemma existsb_agree {A : Type} (f g : A -> bool) (l : list A) :
  (forall x, In x l -> f x = g x) -> existsb f l = existsb g l.
Proof.
  induction l as [|x l IH]; intros H; [reflexivity|].
  simpl. rewrite (H x (or_introl eq_refl)), IH; [reflexivity|].
  intros y Hy. apply H. now right.
Qed.

(** X8.  For a password of ASCII characters the character rules and the
    entropy estimate see the same classes: rules 2 to 5 succeed exactly
    when the upper-case, lower-case, digit and symbol classes count for
    the alphabet, whose size is then 26, 26, 10 and 20 for the rules that
    succeed, and 1 more when there is a blank. *)
Theorem ascii_rules_match_entropy_classes :
  forall (U : unicode_tables) (password : str),
    forallb is_ascii password = true ->
    existsb ascii_upper_letter password = existsb (isupper U) password
    /\ existsb ascii_lower_letter password = existsb (islower U) password
    /\ existsb (re_digit U) password = existsb (isdigit U) password
    /\ possible_characters U password
       = (26 * point (existsb ascii_lower_letter password)
          + 26 * point (existsb ascii_upper_letter password)
          + 10 * point (existsb (re_digit U) password)
          + 20 * point (existsb is_symbol password)
          + point (existsb ascii_space password))%Z.
Proof.
  intros U password H. rewrite forallb_forall in H.
  assert (Hu : existsb ascii_upper_letter password
               = existsb (isupper U) password).
  { apply existsb_agree. intros c Hc. unfold isupper. now rewrite (H c Hc). }
  assert (Hl : existsb ascii_lower_letter password
               = existsb (islower U) password).
  { apply existsb_agree. intros c Hc. unfold islower. now rewrite (H c Hc). }
  assert (Hd : existsb (re_digit U) password
               = existsb (isdigit U) password).
  { apply existsb_agree. intros c Hc. unfold re_digit, isdigit.
    now rewrite (H c Hc). }
  assert (Hs : existsb ascii_space password = existsb (isspace U) password).
  { apply existsb_agree. intros c Hc. unfold isspace. now rewrite (H c Hc). }
  split; [exact Hu|]. split; [exact Hl|]. split; [exact Hd|].
  rewrite possible_characters_spec. unfold spec_alphabet_size.
  rewrite Hu, Hl, Hd, Hs.
  destruct (existsb (islower U) password), (existsb (isupper U) password),
    (existsb (isdigit U) password), (existsb is_symbol password),
    (existsb (isspace U) password); reflexivity.
Qed.

Lemma ascii_rules_match_entropy_classes_witness :
  existsb ascii_upper_letter (lit "Tr0ub4dor&3")
  = existsb (isupper ascii_only) (lit "Tr0ub4dor&3")
  /\ existsb ascii_lower_letter (lit "Tr0ub4dor&3")
     = existsb (islower ascii_only) (lit "Tr0ub4dor&3")
  /\ existsb (re_digit ascii_only) (lit "Tr0ub4dor&3")
     = existsb (isdigit ascii_only) (lit "Tr0ub4dor&3")
  /\ possible_characters ascii_only (lit "Tr0ub4dor&3")
     = (26 * point (existsb ascii_lower_letter (lit "Tr0ub4dor&3"))
        + 26 * point (existsb ascii_upper_letter (lit "Tr0ub4dor&3"))
        + 10 * point (existsb (re_digit ascii_only) (lit "Tr0ub4dor&3"))
        + 20 * point (existsb is_symbol (lit "Tr0ub4dor&3"))
        + point (existsb ascii_space (lit "Tr0ub4dor&3")))%Z.
Proof.
  apply (ascii_rules_match_entropy_classes ascii_only (lit "Tr0ub4dor&3")).
  reflexivity.
Defined.

Lemma scan_hashes_true (suffix : str) (hashes : list (list str)) :
  scan_hashes suffix hashes = Ok true ->
  exists count, In [suffix; count] hashes.
Proof.
  induction hashes as [|fields hashes IH]; [discriminate|].
  cbn [scan_hashes].
  destruct fields as [|f1 [|f2 [|f3 fs]]]; try discriminate.
  destruct (str_eqb f1 suffix) eqn:E.
  - intros _. apply str_eqb_eq in E. subst f1. exists f2. now left.
  - intros H. destruct (IH H) as [count Hc]. exists count. now right.
Qed.

(** X9.  The breach check never answers [True] on its own: when it does,
    the service answered the range URL with status 200 and a body with a
    line of two fields whose first field is the local suffix of the
    digest. *)
Theorem breach_reported_only_on_match :
  forall (get : str -> http_outcome) (password : str),
    is_password_breached get password = Ok true ->
    exists text line count,
      get (range_url ++ firstn 5 (Sha1.sha1_hex_upper password))
      = Response 200 text
      /\ In line (splitlines text)
      /\ split_on 58%N line
         = [skipn 5 (Sha1.sha1_hex_upper password); count].
Proof.
  intros get password. unfold is_password_breached.
  destruct (get (range_url ++ firstn 5 (Sha1.sha1_hex_upper password)))
    as [|status_code text]; [discriminate|].
  destruct (Z.eqb_spec status_code 200) as [-> | _]; [|discriminate].
  cbn [negb]. intros H. apply scan_hashes_true in H.
  destruct H as [count Hin]. apply in_map_iff in Hin.
  destruct Hin as [line [Hline Hin]].
  exists text, line, count. repeat split; assumption.
Qed.

Lemma breach_reported_only_on_match_witness :
  exists text line count,
    (fun _ : str =>
       Response 200 (lit "1E4C9B93F3F0682250B6CF8331B7EE68FD8:3"))
      (range_url ++ firstn 5 (Sha1.sha1_hex_upper (lit "password")))
    = Response 200 text
    /\ In line (splitlines text)
    /\ split_on 58%N line
       = [skipn 5 (Sha1.sha1_hex_upper (lit "password")); count].
Proof.
  apply (breach_reported_only_on_match
           (fun _ => Response 200
                       (lit "1E4C9B93F3F0682250B6CF8331B7EE68FD8:3"))
           (lit "password")).
  vm_compute. reflexivity.
Defined.

(** ** Entropy and crack time along the length of the password *)

Lemma round_half_even_mono (x y : R) :
  (x <= y)%R -> (round_half_even x <= round_half_even y)%Z.
Proof.
  intros H. pose proof (Zfloor_le x y H) as Hf.
  destruct (Zfloor_bound x) as [Hx1 Hx2].
  destruct (Zfloor_bound y) as [Hy1 Hy2].
  unfold round_half_even.
  destruct (Z.eq_dec (Zfloor x) (Zfloor y)) as [E | E].
  - rewrite E in *.
    destruct (Rlt_dec (x - IZR (Zfloor y)) (1 / 2)),
      (Rlt_dec (1 / 2) (x - IZR (Zfloor y))),
      (Rlt_dec (y - IZR (Zfloor y)) (1 / 2)),
      (Rlt_dec (1 / 2) (y - IZR (Zfloor y)));
      destruct (Z.even (Zfloor y)); try lia; lra.
  - assert (Zfloor x + 1 <= Zfloor y)%Z by lia.
    destruct (Rlt_dec (x - IZR (Zfloor x)) (1 / 2)),
      (Rlt_dec (1 / 2) (x - IZR (Zfloor x))),
      (Rlt_dec (y - IZR (Zfloor y)) (1 / 2)),
      (Rlt_dec (1 / 2) (y - IZR (Zfloor y)));
      destruct (Z.even (Zfloor x)), (Z.even (Zfloor y)); lia.
Qed.

Lemma round2_mono (x y : R) : (x <= y)%R -> (round2 x <= round2 y)%R.
Proof.
  intros H. unfold round2.
  assert (H' : (x * 100 <= y * 100)%R) by lra.
  apply round_half_even_mono, IZR_le in H'. lra.
Qed.

Lemma log2_mono (x y : R) : (0 < x)%R -> (x <= y)%R -> (log2 x <= log2 y)%R.
Proof.
  intros Hx H. unfold log2. pose proof ln_2_pos.
  pose proof (ln_le_compat x y Hx H).
  apply Rmult_le_compat_r; [|assumption].
  left. now apply Rinv_0_lt_compat.
Qed.

Lemma possible_characters_range (U : unicode_tables) (password : str) :
  (0 <= possible_characters U password <= 83)%Z.
Proof.
  rewrite possible_characters_spec. unfold spec_alphabet_size.
  destruct (existsb (islower U) password), (existsb (isupper U) password),
    (existsb (isdigit U) password), (existsb is_symbol password),
    (existsb (isspace U) password); simpl; lia.
Qed.

Lemma possible_characters_app (U : unicode_tables) (p q : str) :
  (possible_characters U p <= possible_characters U (p ++ q))%Z
  /\ (possible_characters U q <= possible_characters U (p ++ q))%Z.
Proof.
  rewrite !possible_characters_spec. unfold spec_alphabet_size.
  rewrite !existsb_app.
  destruct (existsb (islower U) p), (existsb (isupper U) p),
    (existsb (isdigit U) p), (existsb is_symbol p), (existsb (isspace U) p),
    (existsb (islower U) q), (existsb (isupper U) q),
    (existsb (isdigit U) q), (existsb is_symbol q), (existsb (isspace U) q);
    simpl; lia.
Qed.

(** The entropy as a number, in one formula: an empty alphabet gives 0,
    as an alphabet of size 1 does. *)
Lemma entropy_value (U : unicode_tables) (password : str) :
  num_val (calculate_entropy U password)
  = round2 (log2 (IZR (Z.max 1 (possible_characters U password)))
            * IZR (Z.of_nat (List.length password))).
Proof.
  unfold calculate_entropy.
  pose proof (possible_characters_range U password) as Hr.
  destruct (Z.eqb_spec (possible_characters U password) 0) as [E | E].
  - rewrite E. cbn [num_val Z.max Z.compare].
    rewrite log2_1, Rmult_0_l, round2_0. reflexivity.
  - cbn [num_val]. rewrite Z.max_r by lia. reflexivity.
Qed.

Lemma entropy_le_of_sizes (U : unicode_tables) (p q : str) :
  (possible_characters U p <= possible_characters U q)%Z ->
  (List.length p <= List.length q)%nat ->
  (num_val (calculate_entropy U p) <= num_val (calculate_entropy U q))%R.
Proof.
  intros Hs Hl. rewrite !entropy_value. apply round2_mono.
  assert (H1 : (1 <= IZR (Z.max 1 (possible_characters U p)))%R)
    by (apply IZR_le; lia).
  assert (H2 : (IZR (Z.max 1 (possible_characters U p))
                <= IZR (Z.max 1 (possible_characters U q)))%R)
    by (apply IZR_le; lia).
  pose proof (log2_nonneg _ H1) as Hn.
  assert (H0 : (0 < IZR (Z.max 1 (possible_characters U p)))%R) by lra.
  pose proof (log2_mono _ _ H0 H2) as Hm.
  assert (H3 : (0 <= IZR (Z.of_nat (List.length p)))%R)
    by (apply IZR_le; lia).
  assert (H4 : (IZR (Z.of_nat (List.length p))
                <= IZR (Z.of_nat (List.length q)))%R)
    by (apply IZR_le; lia).
  nra.
Qed.

(** X10.  Adding characters to a password, at its end or at its start,
    never lowers its entropy. *)
Theorem entropy_grows_with_password :
  forall (U : unicode_tables) (p q : str),
    (num_val (calculate_entropy U p)
     <= num_val (calculate_entropy U (p ++ q)))%R
    /\ (num_val (calculate_entropy U q)
        <= num_val (calculate_entropy U (p ++ q)))%R.
Proof.
  intros U p q. destruct (possible_characters_app U p q) as [Hp Hq].
  split; apply entropy_le_of_sizes; try assumption;
    rewrite length_app; lia.
Qed.

Lemma Rpower_2_nat (n : nat) :
  Rpower 2 (IZR (Z.of_nat n)) = IZR (2 ^ Z.of_nat n).
Proof.
  rewrite <- INR_IZR_INZ, Rpower_pow by lra. apply pow_IZR.
Qed.

Lemma crack_time_fast (entropy : pynum) :
  (num_val entropy <= 33)%R ->
  estimate_crack_time entropy = Ok "less than 1 second"%string.
Proof.
  intros H. rewrite estimate_crack_time_eq.
  destruct (Rle_dec 1024 (num_val entropy)); [lra|].
  pose proof (Rle_Rpower 2 _ _ ltac:(lra) H) as Hp.
  pose proof (Rpower_2_nat 33) as E.
  change (IZR (Z.of_nat 33)) with 33%R in E.
  change (2 ^ Z.of_nat 33)%Z with 8589934592%Z in E.
  rewrite E in Hp.
  destruct (humanize_buckets (Rpower 2 (num_val entropy) / 1e10))
    as [Hb _].
  rewrite Hb; [reflexivity | lra].
Qed.

Lemma crack_time_centuries (entropy : pynum) :
  (65 <= num_val entropy < 1024)%R ->
  estimate_crack_time entropy = Ok "centuries or more"%string.
Proof.
  intros [H1 H2]. rewrite estimate_crack_time_eq.
  destruct (Rle_dec 1024 (num_val entropy)); [lra|].
  pose proof (Rle_Rpower 2 _ _ ltac:(lra) H1) as Hp.
  pose proof (Rpower_2_nat 65) as E.
  change (IZR (Z.of_nat 65)) with 65%R in E.
  change (2 ^ Z.of_nat 65)%Z with 36893488147419103232%Z in E.
  rewrite E in Hp.
  destruct (humanize_buckets (Rpower 2 (num_val entropy) / 1e10))
    as [_ [_ [_ [_ [_ [_ Hb]]]]]].
  rewrite Hb; [reflexivity | lra].
Qed.

(** Bounds of the entropy from bounds of the alphabet and of the length,
    each a comparison of integer powers. *)
Lemma entropy_at_most (U : unicode_tables) (password : str)
  (len bits : nat) :
  (List.length password <= len)%nat ->
  (83 ^ Z.of_nat len <= 2 ^ Z.of_nat bits)%Z ->
  (num_val (calculate_entropy U password) <= INR bits)%R.
Proof.
  intros Hl Hp. rewrite entropy_value.
  pose proof (possible_characters_range U password) as Hr.
  pose proof (log2_times_le 83 bits len eq_refl Hp) as Hb.
  assert (H1 : (1 <= IZR (Z.max 1 (possible_characters U password)))%R)
    by (apply IZR_le; lia).
  assert (H2 : (IZR (Z.max 1 (possible_characters U password)) <= 83)%R)
    by (apply IZR_le; lia).
  pose proof (log2_nonneg _ H1) as Hn.
  assert (H0 : (0 < IZR (Z.max 1 (possible_characters U password)))%R)
    by lra.
  pose proof (log2_mono _ _ H0 H2) as Hm.
  assert (H3 : (0 <= IZR (Z.of_nat (List.length password)) <= INR len)%R).
  { rewrite (INR_IZR_INZ len). split; apply IZR_le; lia. }
  rewrite (INR_IZR_INZ bits) in *.
  replace (IZR (Z.of_nat bits))
    with (IZR (Z.of_nat bits * 100) / 100)%R
    by (rewrite mult_IZR; lra).
  apply round2_le. rewrite mult_IZR. nra.
Qed.

Lemma entropy_at_least (U : unicode_tables) (password : str)
  (len bits : nat) :
  existsb (widening U) password = true ->
  (len <= List.length password)%nat ->
  (2 ^ Z.of_nat bits <= 10 ^ Z.of_nat len)%Z ->
  (INR bits <= num_val (calculate_entropy U password))%R.
Proof.
  intros Hw Hl Hp. rewrite entropy_value.
  destruct (alphabet_size_cases U password)
    as [[Hw' _] | [_ [Hs _]]]; [congruence|].
  pose proof (log2_times_ge 10 bits len eq_refl Hp) as Hb.
  assert (H2 : (10 <= IZR (Z.max 1 (possible_characters U password)))%R)
    by (apply IZR_le; lia).
  pose proof (log2_mono 10 _ ltac:(lra) H2) as Hm.
  assert (Hn : (0 <= log2 10)%R) by (apply log2_nonneg; lra).
  assert (H3 : (0 <= INR len <= IZR (Z.of_nat (List.length password)))%R).
  { rewrite (INR_IZR_INZ len). split; apply IZR_le; lia. }
  rewrite (INR_IZR_INZ bits) in *.
  replace (IZR (Z.of_nat bits))
    with (IZR (Z.of_nat bits * 100) / 100)%R
    by (rewrite mult_IZR; lra).
  apply round2_ge. rewrite mult_IZR. nra.
Qed.

(** X11.  Every password of five characters or fewer is estimated at
    "less than 1 second", whatever its characters. *)
Theorem short_password_cracked_at_once :
  forall (U : unicode_tables) (password : str),
    (List.length password <= 5)%nat ->
    estimate_crack_time (calculate_entropy U password)
    = Ok "less than 1 second"%string.
Proof.
  intros U password H. apply crack_time_fast.
  assert (Hp : (83 ^ Z.of_nat 5 <= 2 ^ Z.of_nat 33)%Z)
    by (apply Z.leb_le; reflexivity).
  pose proof (entropy_at_most U password 5 33 H Hp) as Hb.
  rewrite INR_IZR_INZ in Hb. exact Hb.
Qed.

Lemma short_password_cracked_at_once_witness :
  estimate_crack_time (calculate_entropy ascii_only (lit "aB3$ "))
  = Ok "less than 1 second"%string.
Proof.
  apply (short_password_cracked_at_once ascii_only (lit "aB3$ ")).
  simpl. lia.
Defined.

(** X12.  Every password of 20 to 160 characters with a letter, a digit
    or a symbol is estimated at "centuries or more". *)
Theorem medium_password_takes_centuries :
  forall (U : unicode_tables) (password : str),
    existsb (widening U) password = true ->
    (20 <= List.length password <= 160)%nat ->
    estimate_crack_time (calculate_entropy U password)
    = Ok "centuries or more"%string.
Proof.
  intros U password Hw [H1 H2]. apply crack_time_centuries.
  assert (Hlo : (2 ^ Z.of_nat 65 <= 10 ^ Z.of_nat 20)%Z)
    by (apply Z.leb_le; reflexivity).
  assert (Hhi : (83 ^ Z.of_nat 160 <= 2 ^ Z.of_nat 1021)%Z)
    by (apply Z.leb_le; vm_compute; reflexivity).
  pose proof (entropy_at_least U password 20 65 Hw H1 Hlo) as Ha.
  pose proof (entropy_at_most U password 160 1021 H2 Hhi) as Hb.
  rewrite INR_IZR_INZ in Ha, Hb.
  change (IZR (Z.of_nat 65)) with 65%R in Ha.
  change (IZR (Z.of_nat 1021)) with 1021%R in Hb. lra.
Qed.

Lemma medium_password_takes_centuries_witness :
  estimate_crack_time
    (calculate_entropy ascii_only (lit "correct horse battery staple"))
  = Ok "centuries or more"%string.
Proof.
  apply (medium_password_takes_centuries ascii_only
           (lit "correct horse battery staple")).
  - reflexivity.
  - simpl. lia.
Defined.

(** X13.  Every password of 309 characters or more with a letter, a digit
    or a symbol has an entropy of 1024 or more: the crack-time estimate
    raises [OverflowError], and the evaluation returns no report whatever
    the breach check answers. *)
Theorem long_password_overflows :
  forall (U : unicode_tables) (get : str -> http_outcome)
         (float_repr : R -> string) (username password : str)
         (email : option str),
    existsb (widening U) password = true ->
    (309 <= List.length password)%nat ->
    estimate_crack_time (calculate_entropy U password) = Raise OverflowError
    /\ check_password_strength U get float_repr username password email
       = (breached <- is_password_breached get password ;;
          Raise OverflowError).
Proof.
  intros U get float_repr username password email Hw Hl.
  assert (Hp : (2 ^ Z.of_nat 1024 <= 10 ^ Z.of_nat 309)%Z)
    by (apply Z.leb_le; vm_compute; reflexivity).
  pose proof (entropy_at_least U password 309 1024 Hw Hl Hp) as Ha.
  rewrite INR_IZR_INZ in Ha. change (IZR (Z.of_nat 1024)) with 1024%R in Ha.
  pose proof (estimate_crack_time_overflow _ Ha) as E.
  split; [exact E|]. rewrite check_password_strength_eq, E. reflexivity.
Qed.

Lemma long_password_overflows_witness :
  estimate_crack_time (calculate_entropy ascii_only (repeat 55%N 309))
  = Raise OverflowError
  /\ check_password_strength ascii_only (fun _ => Response 200 [])
       (fun _ => EmptyString) (lit "bob") (repeat 55%N 309) None
     = (breached <- is_password_breached (fun _ => Response 200 [])
                      (repeat 55%N 309) ;;
        Raise OverflowError).
Proof.
  apply (long_password_overflows ascii_only (fun _ => Response 200 [])
           (fun _ => EmptyString) (lit "bob") (repeat 55%N 309) None).
  - vm_compute. reflexivity.
  - rewrite repeat_length. lia.
Defined.

(** ** Text of the report *)

Lemma lit_app (a b : string) : lit (a ++ b) = lit a ++ lit b.
Proof.
  unfold lit. induction a as [|c a IH]; [reflexivity|].
  simpl. now rewrite IH.
Qed.

Lemma decode_from_app (st : Utf8.pending) (a b : list N) :
  Utf8.decode_from st (a ++ b)
  = Utf8.decode_from st a ++ Utf8.decode_from (Utf8.final st a) b.
Proof.
  revert st. induction a as [|x a IH]; intros st; [reflexivity|].
  cbn [app Utf8.decode_from Utf8.final].
  destruct (Utf8.step st x) as [st1 out]. cbn [fst].
  now rewrite IH, app_assoc.
Qed.

Lemma final_app (st : Utf8.pending) (a b : list N) :
  Utf8.final st (a ++ b) = Utf8.final (Utf8.final st a) b.
Proof.
  revert st. induction a as [|x a IH]; intros st; [reflexivity|].
  cbn [app Utf8.final]. apply IH.
Qed.

Lemma decode_from_idle (bits : N) (l : list N) :
  Utf8.decode_from (O, bits) l = Utf8.decode_from Utf8.idle l.
Proof. destruct l; reflexivity. Qed.

Lemma final_idle (bits : N) (l : list N) :
  fst (Utf8.final (O, bits) l) = fst (Utf8.final Utf8.idle l).
Proof. destruct l; reflexivity. Qed.

Lemma decode_app (a b : string) :
  Utf8.whole a = true ->
  Utf8.decode (a ++ b) = Utf8.decode a ++ Utf8.decode b.
Proof.
  unfold Utf8.whole, Utf8.decode. intros H.
  rewrite lit_app, decode_from_app.
  destruct (Utf8.final Utf8.idle (lit a)) as [[|due] bits];
    [|discriminate].
  now rewrite decode_from_idle.
Qed.

Lemma whole_app (a b : string) :
  Utf8.whole a = true -> Utf8.whole (a ++ b) = Utf8.whole b.
Proof.
  unfold Utf8.whole. intros H. rewrite lit_app, final_app.
  destruct (Utf8.final Utf8.idle (lit a)) as [[|due] bits];
    [|discriminate].
  pose proof (final_idle bits (lit b)) as E.
  destruct (Utf8.final (O, bits) (lit b)) as [d1 b1].
  destruct (Utf8.final Utf8.idle (lit b)) as [d2 b2].
  simpl in E. now subst.
Qed.

Lemma ascii_bytes (l : list N) :
  forallb is_ascii l = true ->
  Utf8.decode_from Utf8.idle l = l /\ Utf8.final Utf8.idle l = Utf8.idle.
Proof.
  induction l as [|c l IH]; intros H; [split; reflexivity|].
  cbn [forallb] in H. apply andb_true_iff in H. destruct H as [Hc H].
  destruct (IH H) as [IH1 IH2].
  unfold is_ascii in Hc.
  cbn [Utf8.decode_from Utf8.final Utf8.step Utf8.idle].
  rewrite Hc. cbn [fst app]. fold Utf8.idle. now rewrite IH1, IH2.
Qed.

Lemma ascii_text (s : string) :
  forallb is_ascii (lit s) = true ->
  Utf8.decode s = lit s /\ Utf8.whole s = true.
Proof.
  intros H. destruct (ascii_bytes _ H) as [H1 H2].
  unfold Utf8.decode, Utf8.whole. now rewrite H1, H2.
Qed.

Lemma decode_concat (ls : list string) :
  Forall (fun l => Utf8.whole l = true) ls ->
  Utf8.decode (String.concat nl ls) = join [10%N] (List.map Utf8.decode ls)
  /\ Utf8.whole (String.concat nl ls) = true.
Proof.
  induction 1 as [|l ls Hl _ [IH1 IH2]]; [split; reflexivity|].
  destruct ls as [|l2 ls].
  - split; [reflexivity | exact Hl].
  - cbn [String.concat List.map join] in *. split.
    + rewrite decode_app by exact Hl. rewrite decode_app by reflexivity.
      now rewrite IH1.
    + rewrite whole_app by exact Hl. rewrite whole_app by reflexivity.
      exact IH2.
Qed.

Lemma split_on_plain (sep : char) (a : str) :
  ~ In sep a -> split_on sep a = [a].
Proof.
  induction a as [|c a IH]; intros H; [reflexivity|].
  cbn [split_on]. destruct (N.eqb_spec c sep) as [-> | _].
  - exfalso. apply H. now left.
  - rewrite IH; [reflexivity|]. intros Hin. apply H. now right.
Qed.

Lemma split_on_app (sep : char) (a b : str) :
  ~ In sep a -> split_on sep (a ++ sep :: b) = a :: split_on sep b.
Proof.
  induction a as [|c a IH]; intros H.
  - cbn [app split_on]. now rewrite N.eqb_refl.
  - cbn [app split_on]. destruct (N.eqb_spec c sep) as [-> | _].
    + exfalso. apply H. now left.
    + rewrite IH; [reflexivity|]. intros Hin. apply H. now right.
Qed.

(** Joining lines that hold no separator and splitting the text again
    gives the lines back. *)
Lemma split_on_join (sep : char) (ls : list str) :
  ls <> [] -> Forall (fun l => ~ In sep l) ls ->
  split_on sep (join [sep] ls) = ls.
Proof.
  intros Hne H. induction H as [|l ls Hl H IH]; [contradiction|].
  destruct ls as [|l2 ls].
  - apply split_on_plain, Hl.
  - cbn [join]. cbn [app]. rewrite split_on_app by exact Hl.
    f_equal. apply IH. discriminate.
Qed.

Lemma contains_first_char (c : char) (needle hay : str) :
  contains (c :: needle) hay = true -> In c hay.
Proof.
  induction hay as [|y hay IH]; [discriminate|].
  cbn [contains starts_with]. intros H. apply orb_true_iff in H.
  destruct H as [H | H].
  - apply andb_true_iff in H. destruct H as [H _].
    apply N.eqb_eq in H. now left.
  - right. now apply IH.
Qed.

Lemma in_range_In (lo hi c : N) :
  in_range lo hi c = true -> In c (N_range lo (N.to_nat (hi - lo + 1))).
Proof.
  unfold in_range, N_range. intros H. apply andb_true_iff in H.
  destruct H as [H1 H2]. apply N.leb_le in H1, H2.
  apply in_map_iff. exists (N.to_nat (c - lo)). split; [lia|].
  apply in_seq. lia.
Qed.

Lemma number_char_In (c : N) : number_char c = true -> In c number_chars.
Proof.
  unfold number_char, number_chars. intros H. apply orb_true_iff in H.
  apply in_or_app. destruct H as [H | H].
  - left. exact (in_range_In 48 57 c H).
  - right. apply existsb_exists in H. destruct H as [x [Hx E]].
    apply N.eqb_eq in E. now subst.
Qed.

Lemma crack_char_In (c : N) : crack_char c = true -> In c crack_chars.
Proof.
  unfold crack_char, digit_or_minus, crack_chars. intros H.
  apply orb_true_iff in H. destruct H as [H | H].
  - apply orb_true_iff in H. destruct H as [H | H].
    + apply in_or_app. left. exact (in_range_In 97 122 c H).
    + apply in_or_app. right. apply in_or_app.
      apply orb_true_iff in H. destruct H as [H | H].
      * left. exact (in_range_In 48 57 c H).
      * right. apply N.eqb_eq in H. subst. now left.
  - apply N.eqb_eq in H. subst.
    apply in_or_app. right. apply in_or_app. right. right. now left.
Qed.

(** A property checked on the listed characters holds of every text made
    of them. *)
Lemma forallb_listed (chars : list N) (class P : N -> bool) (t : str) :
  (forall c, class c = true -> In c chars) ->
  forallb P chars = true ->
  forallb class t = true -> forallb P t = true.
Proof.
  intros Hc HP Ht. rewrite forallb_forall in *.
  intros c Hin. apply HP, Hc, Ht, Hin.
Qed.

Lemma forallb_not_In (P : N -> bool) (x : N) (t : str) :
  P x = false -> forallb P t = true -> ~ In x t.
Proof.
  intros Hx Ht Hin. rewrite forallb_forall in Ht.
  rewrite (Ht x Hin) in Hx. discriminate.
Qed.

Section Strip_lemmas.
Variable U : unicode_tables.

Lemma isspace_ascii (c : char) :
  is_ascii c = true -> isspace U c = ascii_space c.
Proof. intros H. unfold isspace. now rewrite H. Qed.

Lemma lstrip_ascii_start (t : str) :
  ascii_start t = true -> lstrip U t = t.
Proof.
  destruct t as [|c t]; [discriminate|]. cbn [ascii_start lstrip].
  intros H. apply andb_true_iff in H. destruct H as [H1 H2].
  rewrite (isspace_ascii c H1). now destruct (ascii_space c).
Qed.

Lemma lstrip_firm_start (t : str) :
  signs_kept U = true -> firm_start t = true -> lstrip U t = t.
Proof.
  intros Hs. destruct t as [|c t]; [discriminate|].
  cbn [firm_start lstrip]. intros H. apply orb_true_iff in H.
  destruct H as [H | H].
  - apply andb_true_iff in H. destruct H as [H1 H2].
    rewrite (isspace_ascii c H1). now destruct (ascii_space c).
  - apply existsb_exists in H. destruct H as [x [Hx E]].
    apply N.eqb_eq in E. subst x.
    unfold signs_kept in Hs. rewrite forallb_forall in Hs.
    specialize (Hs c Hx). now destruct (isspace U c).
Qed.

Lemma firm_end_rev (t : str) : firm_end t = ascii_start (rev t).
Proof. reflexivity. Qed.

Lemma strip_ascii (t : str) :
  ascii_start t = true -> firm_end t = true -> strip U t = t.
Proof.
  intros H1 H2. unfold strip. rewrite (lstrip_ascii_start t H1).
  rewrite firm_end_rev in H2. rewrite (lstrip_ascii_start _ H2).
  apply rev_involutive.
Qed.

Lemma strip_firm (t : str) :
  signs_kept U = true -> firm_start t = true -> firm_end t = true ->
  strip U t = t.
Proof.
  intros Hs H1 H2. unfold strip. rewrite (lstrip_firm_start t Hs H1).
  rewrite firm_end_rev in H2. rewrite (lstrip_ascii_start _ H2).
  apply rev_involutive.
Qed.

Lemma strip_blank (t : str) : strip U (32%N :: t) = strip U t.
Proof. reflexivity. Qed.

Lemma split_from_word (w cur s : str) :
  forallb (fun c => negb (isspace U c)) w = true ->
  split_from U cur (w ++ s) = split_from U (rev w ++ cur) s.
Proof.
  revert cur. induction w as [|c w IH]; intros cur H; [reflexivity|].
  cbn [forallb] in H. apply andb_true_iff in H. destruct H as [Hc H].
  cbn [app split_from]. destruct (isspace U c); [discriminate|].
  rewrite IH by exact H. cbn [rev]. now rewrite <- app_assoc.
Qed.

Lemma split_whitespace_first (w s : str) :
  w <> [] -> forallb (fun c => negb (isspace U c)) w = true ->
  exists rest, split_whitespace U (w ++ 32%N :: s) = w :: rest.
Proof.
  intros Hne H. unfold split_whitespace.
  rewrite (split_from_word w [] _ H), app_nil_r.
  cbn [split_from].
  change (isspace U 32%N) with true. cbv iota.
  destruct (rev w) as [|c r] eqn:E.
  - exfalso. apply Hne. apply (f_equal (@rev N)) in E.
    now rewrite rev_involutive in E.
  - rewrite <- E, rev_involutive. eexists. reflexivity.
Qed.

End Strip_lemmas.

Lemma number_text_spec (s : string) :
  number_text s = true ->
  lit s <> [] /\ forallb number_char (lit s) = true.
Proof.
  unfold number_text. destruct (lit s) as [|c t]; [discriminate|].
  intros H. split; [discriminate | exact H].
Qed.

Lemma number_chars_have (P : N -> bool) (t : str) :
  forallb P number_chars = true ->
  forallb number_char t = true -> forallb P t = true.
Proof. apply forallb_listed, number_char_In. Qed.

Lemma crack_chars_have (P : N -> bool) (t : str) :
  forallb P crack_chars = true ->
  forallb crack_char t = true -> forallb P t = true.
Proof. apply forallb_listed, crack_char_In. Qed.

Lemma lit_String (a : ascii) (s : string) :
  lit (String a s) = N_of_ascii a :: lit s.
Proof. reflexivity. Qed.

Lemma string_of_uint_digits (d : Decimal.uint) :
  forallb digit_or_minus (lit (NilEmpty.string_of_uint d)) = true.
Proof.
  induction d; cbn [NilEmpty.string_of_uint]; [reflexivity | ..];
    rewrite lit_String; cbn [forallb]; rewrite IHd; reflexivity.
Qed.

Lemma string_of_Z_text (z : Z) :
  lit (string_of_Z z) <> []
  /\ forallb digit_or_minus (lit (string_of_Z z)) = true.
Proof.
  unfold string_of_Z, NilZero.string_of_int.
  assert (H : forall d,
             lit (NilZero.string_of_uint d) <> []
             /\ forallb digit_or_minus (lit (NilZero.string_of_uint d))
                = true).
  { intros d. split.
    - destruct d; discriminate.
    - destruct d; try reflexivity; apply string_of_uint_digits. }
  destruct (Z.to_int z) as [d | d].
  - apply H.
  - rewrite lit_String. split; [discriminate|].
    cbn [forallb]. now rewrite (proj2 (H d)).
Qed.

Lemma crack_text_number_unit (z : Z) (u : string) :
  forallb crack_char (lit u) = true ->
  match rev (lit u) with c :: _ => negb (N.eqb c 32) | [] => false end
  = true ->
  crack_text (lit (string_of_Z z ++ u)) = true.
Proof.
  intros Hu He. rewrite lit_app.
  destruct (string_of_Z_text z) as [Hne Hd].
  destruct (lit (string_of_Z z)) as [|c d]; [contradiction|].
  unfold crack_text. rewrite rev_app_distr.
  destruct (rev (lit u)) as [|e r]; [discriminate|]. cbn [app].
  rewrite He, andb_true_r.
  cbn [forallb] in Hd. apply andb_true_iff in Hd. destruct Hd as [Hc Hd].
  apply andb_true_iff. split.
  - cbn [forallb]. rewrite forallb_app.
    apply andb_true_iff. split; [|apply andb_true_iff; split; [|exact Hu]].
    + unfold crack_char. now rewrite Hc, orb_true_r.
    + apply (forallb_listed (N_range 48 10 ++ [45%N]) digit_or_minus);
        [|reflexivity | exact Hd].
      intros x Hx. unfold digit_or_minus in Hx. apply orb_true_iff in Hx.
      apply in_or_app. destruct Hx as [Hx | Hx].
      * left. exact (in_range_In 48 57 x Hx).
      * right. apply N.eqb_eq in Hx. subst. now left.
  - unfold digit_or_minus in Hc. destruct (N.eqb_spec c 32) as [-> | _];
      [discriminate | reflexivity].
Qed.

(** Every estimate is a crack-time text. *)
Lemma humanize_crack_text (seconds : R) :
  crack_text (lit (humanize seconds)) = true.
Proof.
  unfold humanize.
  destruct (Rlt_dec seconds 1); [reflexivity|].
  destruct (Rlt_dec seconds 60);
    [apply crack_text_number_unit; reflexivity|].
  destruct (Rlt_dec seconds 3600);
    [apply crack_text_number_unit; reflexivity|].
  destruct (Rlt_dec seconds 86400);
    [apply crack_text_number_unit; reflexivity|].
  destruct (Rlt_dec seconds 31536000);
    [apply crack_text_number_unit; reflexivity|].
  destruct (Rlt_dec seconds (31536000 * 100));
    [apply crack_text_number_unit; reflexivity | reflexivity].
Qed.

Lemma estimate_crack_text (entropy : pynum) (crack_time : string) :
  estimate_crack_time entropy = Ok crack_time ->
  crack_text (lit crack_time) = true.
Proof.
  rewrite estimate_crack_time_eq.
  destruct (Rle_dec 1024 (num_val entropy)); [discriminate|].
  intros H. injection H as <-. apply humanize_crack_text.
Qed.

Lemma crack_text_spec (t : str) :
  crack_text t = true ->
  forallb crack_char t = true /\ ascii_start t = true /\ firm_end t = true.
Proof.
  unfold crack_text. intros H. apply andb_true_iff in H.
  destruct H as [H He]. apply andb_true_iff in H. destruct H as [Hc Hs].
  pose proof (crack_chars_have
                (fun c => N.eqb c 32 || (is_ascii c && negb (ascii_space c)))
                t eq_refl Hc) as Hp.
  rewrite forallb_forall in Hp.
  split; [exact Hc|]. split.
  - destruct t as [|c t]; [discriminate|]. cbn [ascii_start].
    specialize (Hp c (or_introl eq_refl)).
    destruct (N.eqb c 32); [discriminate | exact Hp].
  - unfold firm_end. destruct (rev t) as [|c r] eqn:E; [discriminate|].
    assert (Hin : In c t) by (apply in_rev; rewrite E; now left).
    specialize (Hp c Hin).
    destruct (N.eqb c 32); [discriminate | exact Hp].
Qed.

Lemma feedback_known (U : unicode_tables) (u p : str) (e : option str)
  (breached : bool) :
  Forall (fun m => In m rule_messages)
         (feedback (rule9_on breached (local_rules U u p e))).
Proof.
  destruct (rule9_on_tally breached (local_rules U u p e)) as [_ ->].
  destruct (local_rules_tally U u p e) as [_ ->].
  assert (H : forall b m, In m rule_messages ->
                          Forall (fun m => In m rule_messages) (unless b m)).
  { intros b m Hm. destruct b; constructor; [exact Hm | constructor]. }
  rewrite !Forall_app. unfold rule_messages.
  repeat split; apply H; simpl; tauto.
Qed.

(** Every message of a rule is whole UTF-8, holds no newline and neither
    word [index] searches for, and is left alone by [strip]. *)
Lemma rule_messages_plain :
  forallb (fun m =>
             Utf8.whole m && quiet_line (Utf8.decode m)
             && firm_start (Utf8.decode m) && firm_end (Utf8.decode m))
          rule_messages = true.
Proof. vm_compute. reflexivity. Qed.

Lemma message_plain (m : string) :
  In m rule_messages ->
  Utf8.whole m = true /\ quiet_line (Utf8.decode m) = true
  /\ firm_start (Utf8.decode m) = true /\ firm_end (Utf8.decode m) = true.
Proof.
  intros H. pose proof rule_messages_plain as P.
  rewrite forallb_forall in P. specialize (P m H).
  apply andb_true_iff in P. destruct P as [P P4].
  apply andb_true_iff in P. destruct P as [P P3].
  apply andb_true_iff in P. destruct P as [P1 P2]. tauto.
Qed.

Lemma quiet_line_spec (t : str) :
  quiet_line t = true ->
  ~ In 10%N t /\ contains (lit "Entropy") t = false
  /\ contains (lit "crack time") t = false.
Proof.
  unfold quiet_line. intros H. apply andb_true_iff in H.
  destruct H as [H H3]. apply andb_true_iff in H. destruct H as [H1 H2].
  apply negb_true_iff in H1, H2, H3. split; [|split; assumption].
  intros Hin. assert (E : existsb (N.eqb 10%N) t = true).
  { apply existsb_exists. exists 10%N. split; [exact Hin | reflexivity]. }
  congruence.
Qed.

Lemma join_cons (sep x : str) (L : list str) :
  L <> [] -> join sep (x :: L) = x ++ sep ++ join sep L.
Proof. destruct L; [contradiction | reflexivity]. Qed.

Lemma join_app (sep : str) (A L : list str) :
  L <> [] -> join sep (A ++ L) = join sep A ++
                                 match A with [] => [] | _ => sep end
                                 ++ join sep L.
Proof.
  intros HL. induction A as [|x A IH]; [reflexivity|].
  cbn [app]. rewrite join_cons by (destruct A; [exact HL | discriminate]).
  rewrite IH. destruct A as [|y A]; [reflexivity|].
  rewrite (join_cons sep x (y :: A)) by discriminate.
  now rewrite <- !app_assoc.
Qed.

Lemma find_skip {A : Type} (f : A -> bool) (X Y : list A) :
  Forall (fun x => f x = false) X -> find f (X ++ Y) = find f Y.
Proof.
  induction 1 as [|x X Hx _ IH]; [reflexivity|].
  cbn [app find]. now rewrite Hx.
Qed.

Lemma not_In_of_forallb (x : N) (t : str) :
  forallb (fun c => negb (N.eqb c x)) t = true -> ~ In x t.
Proof.
  intros H. apply (forallb_not_In (fun c => negb (N.eqb c x)) x t);
    [|exact H].
  now rewrite N.eqb_refl.
Qed.

Lemma firm_end_app (a b : str) :
  firm_end b = true -> firm_end (a ++ b) = true.
Proof.
  unfold firm_end. rewrite rev_app_distr.
  destruct (rev b); [discriminate | trivial].
Qed.

Lemma firm_start_app (a b : str) :
  firm_start a = true -> firm_start (a ++ b) = true.
Proof. destruct a; [discriminate | trivial]. Qed.

Section Informational_lines.
Variable U : unicode_tables.

Lemma number_not_space (n : str) :
  forallb number_char n = true ->
  forallb (fun c => negb (isspace U c)) n = true.
Proof.
  intros H.
  pose proof (number_chars_have
                (fun c => is_ascii c && negb (ascii_space c)) n eq_refl H)
    as Hp.
  rewrite forallb_forall in *. intros c Hc. specialize (Hp c Hc).
  apply andb_true_iff in Hp. destruct Hp as [Ha Hs].
  now rewrite (isspace_ascii U c Ha).
Qed.

Lemma entropy_text_forall (P : N -> bool) (n : str) :
  forallb P (entropy_head ++ [58; 32]%N ++ lit " bits") = true ->
  forallb P number_chars = true ->
  forallb number_char n = true ->
  forallb P (entropy_text n) = true.
Proof.
  intros Hfix Hchars Hn. unfold entropy_text.
  pose proof (number_chars_have P n Hchars Hn) as Hp.
  rewrite !forallb_app in Hfix.
  apply andb_true_iff in Hfix. destruct Hfix as [H1 H2].
  apply andb_true_iff in H2. destruct H2 as [H2 H3].
  cbn [forallb] in H2.
  apply andb_true_iff in H2. destruct H2 as [H58 H2].
  apply andb_true_iff in H2. destruct H2 as [H32 _].
  rewrite forallb_app. apply andb_true_iff. split; [exact H1|].
  cbn [forallb]. rewrite H58, H32, forallb_app. cbn [andb].
  apply andb_true_iff. split; [exact Hp | exact H3].
Qed.

(** What [index] reads in the entropy line: the line holds no newline,
    holds "Entropy" and not "crack time", splits at its one colon, and the
    first word after the colon is the text of the number. *)
Lemma entropy_text_facts (n : str) :
  n <> [] -> forallb number_char n = true ->
  ~ In 10%N (entropy_text n)
  /\ contains (lit "Entropy") (entropy_text n) = true
  /\ contains (lit "crack time") (entropy_text n) = false
  /\ nth_error (split_on 58%N (entropy_text n)) 1
     = Some (32%N :: n ++ lit " bits")
  /\ (exists rest,
         split_whitespace U (strip U (32%N :: n ++ lit " bits"))
         = n :: rest).
Proof.
  intros Hne Hn.
  split; [|split; [|split; [|split]]].
  - apply not_In_of_forallb.
    apply entropy_text_forall; [reflexivity | reflexivity | exact Hn].
  - apply contains_spec. exists [128272; 32]%N, (58%N :: 32%N :: n ++ lit " bits").
    reflexivity.
  - destruct (contains (lit "crack time") (entropy_text n)) eqn:E;
      [|reflexivity].
    exfalso. apply contains_first_char in E. revert E.
    apply not_In_of_forallb.
    apply entropy_text_forall; [reflexivity | reflexivity | exact Hn].
  - unfold entropy_text.
    rewrite split_on_app
      by (apply not_In_of_forallb; reflexivity).
    rewrite split_on_plain; [reflexivity|].
    apply not_In_of_forallb. cbn [forallb]. rewrite forallb_app.
    apply andb_true_iff. split; [reflexivity|].
    apply andb_true_iff. split; [|reflexivity].
    exact (number_chars_have (fun c => negb (N.eqb c 58)) n eq_refl Hn).
  - rewrite strip_blank.
    assert (Hs : strip U (n ++ lit " bits") = n ++ lit " bits").
    { apply strip_ascii.
      - destruct n as [|c n]; [contradiction|]. cbn [app ascii_start].
        cbn [forallb] in Hn. apply andb_true_iff in Hn.
        destruct Hn as [Hc _].
        pose proof (number_chars_have
                      (fun c => is_ascii c && negb (ascii_space c))
                      [c] eq_refl) as Hp.
        cbn [forallb] in Hp. rewrite Hc in Hp. specialize (Hp eq_refl).
        now rewrite andb_true_r in Hp.
      - now apply firm_end_app. }
    rewrite Hs.
    exact (split_whitespace_first U n (lit "bits") Hne
             (number_not_space n Hn)).
Qed.

(** What [index] reads in the crack-time line. *)
Lemma crack_time_text_facts (ct : str) :
  crack_text ct = true ->
  ~ In 10%N (crack_time_text ct)
  /\ contains (lit "crack time") (crack_time_text ct) = true
  /\ nth_error (split_on 58%N (crack_time_text ct)) 1 = Some (32%N :: ct)
  /\ strip U (32%N :: ct) = ct
  /\ firm_end (crack_time_text ct) = true.
Proof.
  intros H. destruct (crack_text_spec ct H) as [Hc [Hs He]].
  assert (Hall : forall x,
             forallb (fun c => negb (N.eqb c x))
                     (crack_head ++ [58; 32]%N) = true ->
             forallb (fun c => negb (N.eqb c x)) crack_chars = true ->
             ~ In x (crack_time_text ct)).
  { intros x H1 H2. apply not_In_of_forallb. unfold crack_time_text.
    rewrite forallb_app in *. apply andb_true_iff in H1.
    destruct H1 as [H1 H3]. cbn [forallb] in *.
    apply andb_true_iff in H3. destruct H3 as [H58 H3].
    apply andb_true_iff in H3. destruct H3 as [H32 _].
    apply andb_true_iff. split; [exact H1|]. cbn [forallb].
    apply andb_true_iff. split; [exact H58|].
    apply andb_true_iff. split; [exact H32|].
    exact (crack_chars_have (fun c => negb (N.eqb c x)) ct H2 Hc). }
  split; [|split; [|split; [|split]]].
  - apply Hall; reflexivity.
  - apply contains_spec.
    exists (Utf8.decode "⏱️ Estimated "), (58%N :: 32%N :: ct).
    reflexivity.
  - unfold crack_time_text.
    rewrite split_on_app by (apply not_In_of_forallb; reflexivity).
    rewrite split_on_plain; [reflexivity|].
    apply not_In_of_forallb. cbn [forallb].
    apply andb_true_iff. split; [reflexivity|].
    exact (crack_chars_have (fun c => negb (N.eqb c 58)) ct eq_refl Hc).
  - rewrite strip_blank. apply strip_ascii; assumption.
  - exact (firm_end_app crack_head _ (firm_end_app [58%N; 32%N] ct He)).
Qed.

End Informational_lines.

Lemma decode_entropy_line (float_repr : R -> string) (entropy : pynum) :
  number_text (format_num float_repr entropy) = true ->
  Utf8.decode (entropy_line float_repr entropy)
  = entropy_text (lit (format_num float_repr entropy))
  /\ Utf8.whole (entropy_line float_repr entropy) = true.
Proof.
  intros H. apply number_text_spec in H. destruct H as [_ H].
  unfold entropy_line.
  assert (Ha : forallb is_ascii
                 (lit (format_num float_repr entropy ++ " bits")) = true).
  { rewrite lit_app, forallb_app. apply andb_true_iff.
    split; [|reflexivity].
    exact (number_chars_have is_ascii _ eq_refl H). }
  destruct (ascii_text _ Ha) as [Hd Hw].
  split.
  - rewrite decode_app by reflexivity. rewrite Hd, lit_app. reflexivity.
  - rewrite whole_app by reflexivity. exact Hw.
Qed.

Lemma decode_crack_time_line (crack_time : string) :
  crack_text (lit crack_time) = true ->
  Utf8.decode (crack_time_line crack_time)
  = crack_time_text (lit crack_time)
  /\ Utf8.whole (crack_time_line crack_time) = true.
Proof.
  intros H. destruct (crack_text_spec _ H) as [Hc _].
  pose proof (crack_chars_have is_ascii _ eq_refl Hc) as Ha.
  destruct (ascii_text _ Ha) as [Hd Hw].
  unfold crack_time_line. split.
  - rewrite decode_app by reflexivity. rewrite Hd. reflexivity.
  - rewrite whole_app by reflexivity. exact Hw.
Qed.

(** ** The form handler on the reports of the evaluator *)

Lemma header_facts (c : classification) :
  Utf8.whole (header c) = true
  /\ Utf8.decode (header c) = join [10%N] (header_lines c) ++ [10%N]
  /\ header_lines c <> []
  /\ forallb quiet_line (header_lines c) = true.
Proof.
  destruct c; (split; [|split; [|split]]);
    try discriminate; vm_compute; reflexivity.
Qed.

Lemma strength_of_header (c : classification) (rest : str) :
  strength_of (Utf8.decode (header c) ++ rest) = label c.
Proof. destruct c; reflexivity. Qed.

Section Report_text.

Variable U : unicode_tables.
Variable float_repr : R -> string.
Variable t : tally.
Variable entropy : pynum.
Variable crack_time : string.

Hypothesis Hknown : Forall (fun m => In m rule_messages) (feedback t).
Hypothesis Hnumber : number_text (format_num float_repr entropy) = true.
Hypothesis Hcrack : crack_text (lit crack_time) = true.

Let number : str := lit (format_num float_repr entropy).
Let report : string :=
  render (advise (crack_time_line crack_time)
            (advise (entropy_line float_repr entropy) t)).
Let last_two : list str :=
  [entropy_text number; crack_time_text (lit crack_time)].
Let messages : list str := List.map Utf8.decode (feedback t).

Lemma messages_quiet : Forall (fun l => quiet_line l = true) messages.
Proof.
  unfold messages. apply Forall_map.
  eapply Forall_impl; [|exact Hknown].
  intros m Hm. apply (message_plain m Hm).
Qed.

Lemma report_decoded :
  Utf8.decode report
  = join [10%N]
      (header_lines (classify (score t)) ++ messages ++ last_two).
Proof.
  unfold report. rewrite render_header. cbn [score advise feedback].
  destruct (header_facts (classify (score t))) as [Hw [Hd [Hne _]]].
  rewrite decode_app by exact Hw.
  destruct (decode_entropy_line float_repr entropy Hnumber) as [He Hwe].
  destruct (decode_crack_time_line crack_time Hcrack) as [Hc Hwc].
  assert (Hall : Forall (fun l => Utf8.whole l = true)
                   ((feedback t ++ [entropy_line float_repr entropy])
                    ++ [crack_time_line crack_time])).
  { rewrite !Forall_app. repeat split.
    - eapply Forall_impl; [|exact Hknown].
      intros m Hm. apply (message_plain m Hm).
    - constructor; [exact Hwe | constructor].
    - constructor; [exact Hwc | constructor]. }
  destruct (decode_concat _ Hall) as [Hj _]. rewrite Hj, Hd.
  rewrite !map_app. cbn [List.map]. rewrite He, Hc.
  fold messages. fold number. rewrite <- app_assoc. cbn [app].
  fold last_two.
  rewrite (join_app [10%N] (header_lines (classify (score t))))
    by (destruct messages; discriminate).
  destruct (header_lines (classify (score t))); [contradiction|].
  now rewrite <- app_assoc.
Qed.

(** The lines of the report, as [feedback.split] gives them: the lines of
    the header, the messages, the entropy line, the crack-time line. *)
Lemma report_lines :
  split_on 10%N (Utf8.decode report)
  = header_lines (classify (score t)) ++ messages ++ last_two.
Proof.
  rewrite report_decoded.
  destruct (header_facts (classify (score t))) as [_ [_ [Hne Hq]]].
  apply split_on_join.
  - destruct (header_lines (classify (score t)));
      [contradiction | discriminate].
  - rewrite !Forall_app. repeat split.
    + apply Forall_forall. intros l Hl.
      rewrite forallb_forall in Hq. apply (quiet_line_spec l (Hq l Hl)).
    + eapply Forall_impl; [|exact messages_quiet].
      intros l Hl. apply (quiet_line_spec l Hl).
    + destruct (number_text_spec _ Hnumber) as [Hn1 Hn2].
      destruct (entropy_text_facts U number Hn1 Hn2) as [H10 _].
      destruct (crack_time_text_facts U _ Hcrack) as [H10' _].
      unfold last_two. repeat constructor; assumption.
Qed.

Lemma report_entropy_line :
  first_line_with (lit "Entropy") (Utf8.decode report)
  = Some (entropy_text number).
Proof.
  unfold first_line_with. rewrite report_lines.
  destruct (header_facts (classify (score t))) as [_ [_ [_ Hq]]].
  rewrite find_skip.
  - rewrite find_skip.
    + destruct (number_text_spec _ Hnumber) as [Hn1 Hn2].
      destruct (entropy_text_facts U number Hn1 Hn2) as [_ [He _]].
      unfold last_two. cbn [find]. now rewrite He.
    + eapply Forall_impl; [|exact messages_quiet].
      intros l Hl. apply (quiet_line_spec l Hl).
  - apply Forall_forall. intros l Hl.
    rewrite forallb_forall in Hq. apply (quiet_line_spec l (Hq l Hl)).
Qed.

Lemma report_crack_time_line :
  first_line_with (lit "crack time") (Utf8.decode report)
  = Some (crack_time_text (lit crack_time)).
Proof.
  unfold first_line_with. rewrite report_lines.
  destruct (header_facts (classify (score t))) as [_ [_ [_ Hq]]].
  rewrite find_skip.
  - rewrite find_skip.
    + destruct (number_text_spec _ Hnumber) as [Hn1 Hn2].
      destruct (entropy_text_facts U number Hn1 Hn2) as [_ [_ [He _]]].
      destruct (crack_time_text_facts U _ Hcrack) as [_ [Hc _]].
      unfold last_two. cbn [find]. now rewrite He, Hc.
    + eapply Forall_impl; [|exact messages_quiet].
      intros l Hl. apply (quiet_line_spec l Hl).
  - apply Forall_forall. intros l Hl.
    rewrite forallb_forall in Hq. apply (quiet_line_spec l (Hq l Hl)).
Qed.

Lemma report_entropy_of (parse_float : str -> option R) :
  entropy_of U parse_float (Utf8.decode report)
  = match parse_float number with
    | Some r => Done (PyFloat r)
    | None => Failed FloatValueError
    end.
Proof.
  unfold entropy_of. rewrite report_entropy_line.
  destruct (number_text_spec _ Hnumber) as [Hn1 Hn2].
  destruct (entropy_text_facts U number Hn1 Hn2)
    as [_ [_ [_ [Hs [rest Hw]]]]].
  change (entropy_text number)
    with (128272%N :: tl (entropy_text number)) at 1.
  cbv iota.
  change (128272%N :: tl (entropy_text number)) with (entropy_text number).
  rewrite Hs, Hw. reflexivity.
Qed.

Lemma report_crack_time_of :
  crack_time_of U (Utf8.decode report) = Done (lit crack_time).
Proof.
  unfold crack_time_of. rewrite report_crack_time_line.
  destruct (crack_time_text_facts U _ Hcrack) as [_ [_ [Hs [Hst _]]]].
  change (crack_time_text (lit crack_time))
    with (9201%N :: tl (crack_time_text (lit crack_time))) at 1.
  cbv iota.
  change (9201%N :: tl (crack_time_text (lit crack_time)))
    with (crack_time_text (lit crack_time)).
  rewrite Hs, Hst. reflexivity.
Qed.

Lemma firm_start_join (sep x : str) (L : list str) :
  firm_start x = true -> firm_start (join sep (x :: L)) = true.
Proof.
  intros H. destruct L; [exact H|].
  rewrite join_cons by discriminate. now apply firm_start_app.
Qed.

Lemma firm_end_join (sep : str) (L : list str) :
  L <> [] -> Forall (fun l => firm_end l = true) L ->
  firm_end (join sep L) = true.
Proof.
  intros Hne H. induction H as [|x L Hx H IH]; [contradiction|].
  destruct L as [|y L]; [exact Hx|].
  rewrite join_cons by discriminate.
  apply firm_end_app, firm_end_app, IH. discriminate.
Qed.

Lemma messages_firm :
  Forall (fun l => firm_start l = true /\ firm_end l = true) messages.
Proof.
  unfold messages. apply Forall_map.
  eapply Forall_impl; [|exact Hknown].
  intros m Hm. apply (message_plain m Hm).
Qed.

(** What [index] keeps as the feedback of the row. *)
Lemma report_core_feedback :
  signs_kept U = true ->
  core_feedback_of U (Utf8.decode report)
  = match classify (score t), messages with
    | Moderate, _ => join [10%N] (lit "Consider improving:" :: messages)
    | _, [] => join [10%N] last_two
    | _, _ => join [10%N] messages
    end.
Proof.
  intros Hsigns. unfold core_feedback_of. rewrite report_lines.
  pose proof messages_firm as Hf.
  assert (Hends : Forall (fun l => firm_end l = true) messages).
  { eapply Forall_impl; [|exact Hf]. now intros l [_ H]. }
  assert (Hlast : firm_end (join [10%N] last_two) = true).
  { apply firm_end_join; [discriminate|].
    destruct (crack_time_text_facts U _ Hcrack) as [_ [_ [_ [_ He]]]].
    unfold last_two. repeat constructor; [|exact He].
    apply firm_end_app.
    apply (firm_end_app ([58; 32]%N ++ number) (lit " bits")).
    reflexivity. }
  assert (Hcut : firstn (List.length messages) (messages ++ last_two)
                 = messages).
  { rewrite firstn_app, Nat.sub_diag, firstn_all. cbn [firstn].
    apply app_nil_r. }
  assert (Hlen : List.length last_two = 2%nat) by reflexivity.
  assert (Hfirst : firm_start (join [10%N] last_two) = true)
    by reflexivity.
  clearbody messages last_two.
  destruct (classify (score t)); cbn [header_lines app List.length skipn];
    rewrite length_app, Hlen.
  - (* Strong *)
    destruct messages as [|m ms].
    + cbn [List.length Nat.add Nat.leb app].
      apply strip_firm; [exact Hsigns | exact Hfirst | exact Hlast].
    + replace (Nat.leb 4 (S (List.length (m :: ms) + 2))) with true
        by (symmetry; apply Nat.leb_le; simpl; lia).
      replace (S (List.length (m :: ms) + 2) - 3)%nat
        with (List.length (m :: ms)) by (simpl; lia).
      rewrite Hcut.
      apply strip_firm; [exact Hsigns | |].
      * apply firm_start_join. now inversion Hf as [|? ? [H _] _].
      * apply firm_end_join; [discriminate | exact Hends].
  - (* Moderate *)
    replace (Nat.leb 4 (S (S (List.length messages + 2)))) with true
      by (symmetry; apply Nat.leb_le; lia).
    replace (S (S (List.length messages + 2)) - 3)%nat
      with (S (List.length messages)) by lia.
    cbn [firstn]. rewrite Hcut.
    assert (Hj : join [10%N] (lit " Consider improving:" :: messages)
                 = 32%N :: join [10%N]
                             (lit "Consider improving:" :: messages)).
    { destruct messages; reflexivity. }
    rewrite Hj, strip_blank.
    apply strip_firm; [exact Hsigns | |].
    + now apply firm_start_join.
    + apply firm_end_join; [discriminate|].
      constructor; [reflexivity | exact Hends].
  - (* Weak *)
    destruct messages as [|m ms].
    + cbn [List.length Nat.add Nat.leb app].
      apply strip_firm; [exact Hsigns | exact Hfirst | exact Hlast].
    + replace (Nat.leb 4 (S (List.length (m :: ms) + 2))) with true
        by (symmetry; apply Nat.leb_le; simpl; lia).
      replace (S (List.length (m :: ms) + 2) - 3)%nat
        with (List.length (m :: ms)) by (simpl; lia).
      rewrite Hcut.
      apply strip_firm; [exact Hsigns | |].
      * apply firm_start_join. now inversion Hf as [|? ? [H _] _].
      * apply firm_end_join; [discriminate | exact Hends].
Qed.

End Report_text.

Lemma strength_of_report (t : tally) :
  strength_of (Utf8.decode (render t)) = label (classify (score t)).
Proof.
  rewrite render_header.
  destruct (header_facts (classify (score t))) as [Hw _].
  rewrite decode_app by exact Hw. apply strength_of_header.
Qed.

(** X15.  The label [index] reads off the first characters of a report is the
    class of the score the report was rendered from, whatever the
    feedback. *)
Theorem index_label_is_class :
  forall t : tally,
    strength_of (Utf8.decode (render t)) = label (classify (score t))
    /\ (strength_of (Utf8.decode (render t)) = lit "strong"
        <-> (6 <= score t)%Z)
    /\ (strength_of (Utf8.decode (render t)) = lit "weak"
        <-> (score t < 4)%Z).
Proof.
  intros t. rewrite strength_of_report. split; [reflexivity|].
  unfold classify.
  destruct (Z.leb_spec 6 (score t)); [|destruct (Z.leb_spec 4 (score t))];
    cbn [label]; (split; split); intros; try discriminate; try lia;
    reflexivity.
Qed.

(** [index] on an evaluation that returns, with the report spelled out. *)
Lemma index_done (U : unicode_tables) (get : str -> http_outcome)
  (float_repr : R -> string) (parse_float : str -> option R)
  (username email password : str) (breached : bool)
  (crack_time : string) (r : R) :
  is_password_breached get password = Ok breached ->
  estimate_crack_time (calculate_entropy U password) = Ok crack_time ->
  number_text (format_num float_repr (calculate_entropy U password))
  = true ->
  parse_float (lit (format_num float_repr (calculate_entropy U password)))
  = Some r ->
  let t := rule9_on breached
             (local_rules U username password (Some email)) in
  let report :=
    render (advise (crack_time_line crack_time)
              (advise (entropy_line float_repr
                         (calculate_entropy U password)) t)) in
  check_password_strength U get float_repr username password (Some email)
  = Ok report
  /\ index U get float_repr parse_float (POST username email password)
     = Done ({| page_feedback := Some (Utf8.decode report);
                page_strength := Some (label (classify (score t))) |},
             Some {| pr_username := username;
                     pr_email := email;
                     pr_entropy := PyFloat r;
                     pr_crack_time := lit crack_time;
                     pr_strength := label (classify (score t));
                     pr_feedback :=
                       core_feedback_of U (Utf8.decode report) |}).
Proof.
  intros Hb Hct Hnum Hparse t report.
  pose proof (feedback_known U username password (Some email) breached)
    as Hk.
  pose proof (estimate_crack_text _ _ Hct) as Hc.
  split.
  - rewrite check_password_strength_eq, Hb. cbn [bind]. rewrite Hct.
    reflexivity.
  - unfold index. rewrite check_password_strength_eq, Hb. cbn [bind].
    rewrite Hct. cbn [bind]. cbv zeta.
    rewrite (report_entropy_of U float_repr _ _ _ Hk Hnum Hc parse_float).
    rewrite Hparse.
    rewrite (report_crack_time_of U float_repr _ _ _ Hk Hnum Hc).
    rewrite strength_of_report. reflexivity.
Qed.

(** X16.  The form handler on an evaluation that returns: no step of its
    parsing raises; the text it hands to [float] is the text of the
    entropy as the evaluator formatted it, so the row holds that number;
    the crack time of the row is the estimate of the evaluator; the label
    of the page and of the row is the class of the score. *)
Theorem index_reads_report_back :
  forall (U : unicode_tables) (get : str -> http_outcome)
         (float_repr : R -> string) (parse_float : str -> option R)
         (username email password : str) (breached : bool)
         (crack_time : string) (r : R),
    is_password_breached get password = Ok breached ->
    estimate_crack_time (calculate_entropy U password) = Ok crack_time ->
    number_text (format_num float_repr (calculate_entropy U password))
    = true ->
    parse_float (lit (format_num float_repr (calculate_entropy U password)))
    = Some r ->
    let c := classify
               (score (rule9_on breached
                         (local_rules U username password (Some email)))) in
    exists report,
      check_password_strength U get float_repr username password
        (Some email) = Ok report
      /\ index U get float_repr parse_float (POST username email password)
         = Done ({| page_feedback := Some (Utf8.decode report);
                    page_strength := Some (label c) |},
                 Some {| pr_username := username;
                         pr_email := email;
                         pr_entropy := PyFloat r;
                         pr_crack_time := lit crack_time;
                         pr_strength := label c;
                         pr_feedback :=
                           core_feedback_of U (Utf8.decode report) |}).
Proof.
  intros U get float_repr parse_float username email password breached
    crack_time r Hb Hct Hnum Hparse c.
  destruct (index_done U get float_repr parse_float username email
              password breached crack_time r Hb Hct Hnum Hparse)
    as [H1 H2].
  eexists. split; [exact H1 | exact H2].
Qed.

Lemma index_reads_report_back_witness :
  exists report,
    check_password_strength ascii_only (fun _ => Response 200 [])
      (fun _ => EmptyString) (lit "bob") [] (Some []) = Ok report
    /\ index ascii_only (fun _ => Response 200 []) (fun _ => EmptyString)
         (fun _ => Some 0%R) (POST (lit "bob") [] [])
       = Done ({| page_feedback := Some (Utf8.decode report);
                  page_strength := Some (lit "weak") |},
               Some {| pr_username := lit "bob";
                       pr_email := [];
                       pr_entropy := PyFloat 0;
                       pr_crack_time := lit "less than 1 second";
                       pr_strength := lit "weak";
                       pr_feedback :=
                         core_feedback_of ascii_only
                           (Utf8.decode report) |}).
Proof.
  apply (index_reads_report_back ascii_only (fun _ => Response 200 [])
           (fun _ => EmptyString) (fun _ => Some 0%R) (lit "bob") [] []
           false "less than 1 second" 0%R).
  - reflexivity.
  - exact estimate_crack_time_0.
  - reflexivity.
  - reflexivity.
Defined.

(** X17.  What the row keeps as feedback.  For a Strong or Weak report with
    messages it is the messages; for a Moderate report the second line of
    the header, "Consider improving:", comes first; and for a report
    without any message (three lines, fewer than the four the slice
    expects) it is the entropy line and the crack-time line. *)
Theorem index_stored_feedback :
  forall (U : unicode_tables) (get : str -> http_outcome)
         (float_repr : R -> string) (parse_float : str -> option R)
         (username email password : str) (breached : bool)
         (crack_time : string) (r : R),
    is_password_breached get password = Ok breached ->
    estimate_crack_time (calculate_entropy U password) = Ok crack_time ->
    number_text (format_num float_repr (calculate_entropy U password))
    = true ->
    parse_float (lit (format_num float_repr (calculate_entropy U password)))
    = Some r ->
    signs_kept U = true ->
    let t := rule9_on breached
               (local_rules U username password (Some email)) in
    let messages := List.map Utf8.decode (feedback t) in
    exists shown row,
      index U get float_repr parse_float (POST username email password)
      = Done (shown, Some row)
      /\ pr_feedback row
         = match classify (score t), messages with
           | Moderate, _ =>
               join [10%N] (lit "Consider improving:" :: messages)
           | _, [] =>
               join [10%N]
                 [entropy_text
                    (lit (format_num float_repr
                            (calculate_entropy U password)));
                  crack_time_text (lit crack_time)]
           | _, _ => join [10%N] messages
           end.
Proof.
  intros U get float_repr parse_float username email password breached
    crack_time r Hb Hct Hnum Hparse Hsigns t messages.
  destruct (index_done U get float_repr parse_float username email
              password breached crack_time r Hb Hct Hnum Hparse)
    as [_ H].
  eexists. eexists. split; [exact H|]. cbn [pr_feedback].
  apply report_core_feedback.
  - apply feedback_known.
  - exact Hnum.
  - exact (estimate_crack_text _ _ Hct).
  - exact Hsigns.
Qed.

Lemma existsb_weaken {A : Type} (f g : A -> bool) (l : list A) :
  (forall x, f x = true -> g x = true) ->
  existsb f l = true -> existsb g l = true.
Proof.
  intros H Hf. apply existsb_exists in Hf. destruct Hf as [x [Hx Hfx]].
  apply existsb_exists. exists x. split; [exact Hx | now apply H].
Qed.

Lemma in_range_ascii (lo hi c : N) :
  (hi < 128)%N -> in_range lo hi c = true -> is_ascii c = true.
Proof.
  unfold in_range, is_ascii. intros Hh H. apply andb_true_iff in H.
  destruct H as [_ H]. apply N.leb_le in H. apply N.ltb_lt. lia.
Qed.

Lemma entropy_lower_bound (U : unicode_tables) (password : str) (a : Z)
  (len bits : nat) :
  (1 <= a <= possible_characters U password)%Z ->
  (len <= List.length password)%nat ->
  (2 ^ Z.of_nat bits <= a ^ Z.of_nat len)%Z ->
  (INR bits <= num_val (calculate_entropy U password))%R.
Proof.
  intros [Ha1 Ha2] Hl Hp. rewrite entropy_value.
  pose proof (log2_times_ge a bits len ltac:(lia) Hp) as Hb.
  assert (H1 : (1 <= IZR a)%R) by (apply IZR_le; lia).
  assert (H2 : (IZR a <= IZR (Z.max 1 (possible_characters U password)))%R)
    by (apply IZR_le; lia).
  assert (H0 : (0 < IZR a)%R) by lra.
  pose proof (log2_mono _ _ H0 H2) as Hm.
  pose proof (log2_nonneg _ H1) as Hn.
  assert (H3 : (0 <= INR len <= IZR (Z.of_nat (List.length password)))%R).
  { rewrite (INR_IZR_INZ len). split; apply IZR_le; lia. }
  rewrite (INR_IZR_INZ bits) in *.
  replace (IZR (Z.of_nat bits))
    with (IZR (Z.of_nat bits * 100) / 100)%R
    by (rewrite mult_IZR; lra).
  apply round2_ge. rewrite mult_IZR. nra.
Qed.

Lemma letters_take_centuries (U : unicode_tables) (password : str) :
  existsb ascii_upper_letter password = true ->
  existsb ascii_lower_letter password = true ->
  (12 <= List.length password <= 160)%nat ->
  estimate_crack_time (calculate_entropy U password)
  = Ok "centuries or more"%string.
Proof.
  intros Hu Hl [H1 H2]. apply crack_time_centuries.
  assert (Hu' : existsb (isupper U) password = true).
  { apply (existsb_weaken ascii_upper_letter); [|exact Hu].
    intros c Hc. unfold isupper.
    now rewrite (in_range_ascii 65 90 c eq_refl Hc). }
  assert (Hl' : existsb (islower U) password = true).
  { apply (existsb_weaken ascii_lower_letter); [|exact Hl].
    intros c Hc. unfold islower.
    now rewrite (in_range_ascii 97 122 c eq_refl Hc). }
  assert (Hs : (1 <= 52 <= possible_characters U password)%Z).
  { rewrite possible_characters_spec. unfold spec_alphabet_size.
    rewrite Hu', Hl'.
    destruct (existsb (isdigit U) password), (existsb is_symbol password),
      (existsb (isspace U) password); simpl; lia. }
  assert (Hlo : (2 ^ Z.of_nat 65 <= 52 ^ Z.of_nat 12)%Z)
    by (apply Z.leb_le; reflexivity).
  assert (Hhi : (83 ^ Z.of_nat 160 <= 2 ^ Z.of_nat 1021)%Z)
    by (apply Z.leb_le; vm_compute; reflexivity).
  pose proof (entropy_lower_bound U password 52 12 65 Hs H1 Hlo) as Ha.
  pose proof (entropy_at_most U password 160 1021 H2 Hhi) as Hb.
  rewrite INR_IZR_INZ in Ha, Hb.
  change (IZR (Z.of_nat 65)) with 65%R in Ha.
  change (IZR (Z.of_nat 1021)) with 1021%R in Hb. lra.
Qed.

(** X14.  Every password that passes the length rule and the two letter
    rules (12 characters or more, an upper-case and a lower-case letter) and is
    not longer than 160 characters is estimated at "centuries or more". *)
Theorem compliant_password_takes_centuries :
  forall (U : unicode_tables) (password : str) (t : tally),
    rule1 password t = award t ->
    rule2 password t = award t ->
    rule3 password t = award t ->
    (List.length password <= 160)%nat ->
    estimate_crack_time (calculate_entropy U password)
    = Ok "centuries or more"%string.
Proof.
  intros U password t H1 H2 H3 Hlen.
  assert (Hneq : forall msg, advise msg t <> award t).
  { intros msg H. apply (f_equal score) in H. simpl in H. lia. }
  apply letters_take_centuries.
  - unfold rule2 in H2.
    destruct (existsb ascii_upper_letter password);
      [reflexivity | now apply Hneq in H2].
  - unfold rule3 in H3.
    destruct (existsb ascii_lower_letter password);
      [reflexivity | now apply Hneq in H3].
  - split; [|exact Hlen]. unfold rule1 in H1.
    destruct (Nat.leb_spec 12 (List.length password));
      [assumption | now apply Hneq in H1].
Qed.

Lemma compliant_password_takes_centuries_witness :
  estimate_crack_time (calculate_entropy ascii_only (lit "Abcdefghij1!"))
  = Ok "centuries or more"%string.
Proof.
  apply (compliant_password_takes_centuries ascii_only (lit "Abcdefghij1!")
           {| score := 0; feedback := [] |}).
  - reflexivity.
  - reflexivity.
  - reflexivity.
  - simpl. lia.
Defined.

Lemma index_stored_feedback_witness :
  exists shown row,
    index ascii_only (fun _ => Response 200 []) (fun _ => "76.29"%string)
      (fun _ => Some (7629 / 100)%R)
      (POST (lit "bob") (lit "bob@example.org") (lit "Abcdefghij1!"))
    = Done (shown, Some row)
    /\ pr_feedback row
       = join [10%N]
           [entropy_text (lit "76.29");
            crack_time_text (lit "centuries or more")].
Proof.
  apply (index_stored_feedback ascii_only (fun _ => Response 200 [])
           (fun _ => "76.29"%string) (fun _ => Some (7629 / 100)%R)
           (lit "bob") (lit "bob@example.org") (lit "Abcdefghij1!")
           false "centuries or more" (7629 / 100)%R).
  - reflexivity.
  - apply letters_take_centuries; [reflexivity | reflexivity | simpl; lia].
  - reflexivity.
  - reflexivity.
  - reflexivity.
Defined.

(** X18.  The form handler has no handler of its own around the evaluator:
    for every password, transport and exception, when the evaluation
    raises, the request ends in that exception, with no page and no row.
    So it does for every password when the transport raises; and for every
    password of 309 characters or more with a letter, a digit or a symbol
    the request fails whatever the transport does: in [OverflowError]
    when the breach check answers, in the exception of the breach check
    otherwise. *)
Theorem index_fails_with_evaluator :
  forall (U : unicode_tables) (float_repr : R -> string)
         (parse_float : str -> option R) (username email password : str),
    (forall get e,
        check_password_strength U get float_repr username password
          (Some email) = Raise e ->
        index U get float_repr parse_float (POST username email password)
        = Failed (CheckerRaised e))
    /\ index U (fun _ => ConnectionFailed) float_repr parse_float
         (POST username email password)
       = Failed (CheckerRaised RequestException)
    /\ (existsb (widening U) password = true ->
        (309 <= List.length password)%nat ->
        forall get,
          index U get float_repr parse_float (POST username email password)
          = match is_password_breached get password with
            | Ok _ => Failed (CheckerRaised OverflowError)
            | Raise e => Failed (CheckerRaised e)
            end).
Proof.
  intros U float_repr parse_float username email password.
  split; [|split].
  - intros get e H. unfold index. rewrite H. reflexivity.
  - unfold index. rewrite check_password_strength_eq. reflexivity.
  - intros Hw Hl get.
    assert (Hp : (2 ^ Z.of_nat 1024 <= 10 ^ Z.of_nat 309)%Z)
      by (apply Z.leb_le; vm_compute; reflexivity).
    pose proof (entropy_at_least U password 309 1024 Hw Hl Hp) as Ha.
    rewrite INR_IZR_INZ in Ha. change (IZR (Z.of_nat 1024)) with 1024%R in Ha.
    pose proof (estimate_crack_time_overflow _ Ha) as E.
    unfold index. rewrite check_password_strength_eq.
    destruct (is_password_breached get password) as [breached|e];
      [|reflexivity].
    cbn [bind]. rewrite E. reflexivity.
Qed.

Lemma index_fails_with_evaluator_witness :
  index ascii_only (fun _ => ConnectionFailed) (fun _ => EmptyString)
    (fun _ => None) (POST (lit "bob") [] (lit "x"))
  = Failed (CheckerRaised RequestException)
  /\ index ascii_only (fun _ => Response 200 []) (fun _ => EmptyString)
       (fun _ => None) (POST (lit "bob") [] (repeat 55%N 309))
     = Failed (CheckerRaised OverflowError)
  /\ index ascii_only (fun _ => Response 200 [10%N]) (fun _ => EmptyString)
       (fun _ => None) (POST (lit "bob") [] (repeat 55%N 309))
     = Failed (CheckerRaised ValueError).
Proof.
  split; [|split].
  - exact (proj1 (proj2 (index_fails_with_evaluator ascii_only
                           (fun _ => EmptyString) (fun _ => None)
                           (lit "bob") [] (lit "x")))).
  - rewrite (proj2 (proj2 (index_fails_with_evaluator ascii_only
                             (fun _ => EmptyString) (fun _ => None)
                             (lit "bob") [] (repeat 55%N 309)))).
    + reflexivity.
    + vm_compute. reflexivity.
    + rewrite repeat_length. lia.
  - rewrite (proj2 (proj2 (index_fails_with_evaluator ascii_only
                             (fun _ => EmptyString) (fun _ => None)
                             (lit "bob") [] (repeat 55%N 309)))).
    + unfold is_password_breached.
      change (splitlines [10%N]) with [@nil PyStr.char].
      reflexivity.
    + vm_compute. reflexivity.
    + rewrite repeat_length. lia.
Defined.

(** X19.  The estimate by bits of entropy: up to 33 bits it is "less than
    1 second", from 65 bits up to 1024 exclusive it is "centuries or
    more". *)
Theorem crack_time_entropy_bands :
  forall entropy : pynum,
    ((num_val entropy <= 33)%R ->
     estimate_crack_time entropy = Ok "less than 1 second"%string)
    /\ ((65 <= num_val entropy < 1024)%R ->
        estimate_crack_time entropy = Ok "centuries or more"%string).
Proof.
  intros entropy. split;
    [apply crack_time_fast | apply crack_time_centuries].
Qed.
